(** * catalyst.exchange.exchange_utils

    A shallow embedding of [catalyst/exchange/exchange_utils.py]: the
    exchange symbol cache ([get_exchange_symbols]), the per-algorithm
    object and table store ([get_algo_object], [get_algo_df]), the
    frequency parser ([get_frequency]) and the bar resampler
    ([resample_history_df]).

    Python strings are modelled as [string] (one [ascii] per code point,
    read as Latin-1), Python integers as [Z], [None] as [option], raised
    exceptions as the left injection of a sum.  Code that touches the file
    system, the clock or the network runs in a state-and-exception monad
    over an explicit [World]; an exception keeps the side effects performed
    before it was raised, as in Python. *)

From Stdlib Require Import ZArith List String Ascii Bool Lia Sorted.
From stdpp Require Import base strings gmap.
Import ListNotations.
Open Scope Z_scope.

(** ** Exceptions *)

(** The exception classes the module names, raises or lets through.  All of
    them derive from Python's [Exception].  [URLError] stands for the errors of
    [urllib] ([URLError], [HTTPError], [ContentTooShortError]), which derive
    from [IOError]; [LibraryError] stands for any other exception class
    raised inside a library call (an unpickling error, a CSV parser
    error, ...). *)
Inductive exn : Type :=
| ExchangeSymbolsNotFound (exchange filename : string)
| InvalidHistoryFrequencyError (frequency : string)
| ValueError (msg : string)
| TypeError (msg : string)
| IOError (msg : string)
| URLError (reason : string)
| LibraryError (cls : string).

(** [isinstance(e, IOError)]. *)
Definition is_IOError (e : exn) : bool :=
  match e with
  | IOError _ | URLError _ => true
  | _ => false
  end.

(** The pure error monad: [inl e] is "raise e", [inr v] is "return v". *)
Definition result (A : Type) : Type := (exn + A)%type.

#[export] Instance result_ret : MRet (sum exn) := fun _ v => inr v.
#[export] Instance result_bind : MBind (sum exn) := fun _ _ f r =>
  match r with
  | inl e => inl e
  | inr v => f v
  end.

(** ** Strings *)

Module Str.

Definition code (c : ascii) : Z := Z.of_nat (nat_of_ascii c).

(** [s.startswith(c)] and [s.endswith(c)] for a one-character [c]. *)
Definition startswith (c : ascii) (s : string) : bool :=
  match s with
  | String c' _ => Ascii.eqb c c'
  | EmptyString => false
  end.

Fixpoint endswith (c : ascii) (s : string) : bool :=
  match s with
  | EmptyString => false
  | String c' EmptyString => Ascii.eqb c c'
  | String _ s' => endswith c s'
  end.

(** [str.lower] on the letters A-Z; the other code points the module
    lower-cases are never letters. *)
Definition lower_char (c : ascii) : ascii :=
  if (65 <=? code c) && (code c <=? 90)
  then ascii_of_nat (nat_of_ascii c + 32)
  else c.

Fixpoint lower (s : string) : string :=
  match s with
  | EmptyString => EmptyString
  | String c s' => String (lower_char c) (lower s')
  end.

(** The decimal digits [0-9]. *)
Definition is_digit (c : ascii) : bool := (48 <=? code c) && (code c <=? 57).

Definition digit_value (c : ascii) : Z := code c - 48.

(** The white space [int] drops around a literal: tab, line feed, vertical
    tab, form feed, carriage return and the space, and, of the code points
    above ASCII, the next-line and the no-break space, which [int] first
    turns into spaces.  The separators U+001C to U+001F are white space
    for [str.isspace] but not for [int]. *)
Definition is_space (c : ascii) : bool :=
  ((9 <=? code c) && (code c <=? 13)) || (code c =? 32)
  || (code c =? 133) || (code c =? 160).

Fixpoint lstrip (s : string) : string :=
  match s with
  | String c s' => if is_space c then lstrip s' else s
  | EmptyString => EmptyString
  end.

Fixpoint rstrip (s : string) : string :=
  match s with
  | EmptyString => EmptyString
  | String c s' =>
      match rstrip s' with
      | EmptyString => if is_space c then EmptyString else String c EmptyString
      | r => String c r
      end
  end.

Definition strip (s : string) : string := rstrip (lstrip s).

End Str.

(** ** [int(str)] *)

(** The digits of a decimal literal after its first digit: digits, with
    single underscores allowed between two digits. *)
Fixpoint int_digits (acc : Z) (after_underscore : bool) (s : string) : option Z :=
  match s with
  | EmptyString => if after_underscore then None else Some acc
  | String c s' =>
      if Str.is_digit c then int_digits (10 * acc + Str.digit_value c) false s'
      else if Ascii.eqb c "_" then
             if after_underscore then None else int_digits acc true s'
           else None
  end.

Definition int_magnitude (s : string) : option Z :=
  match s with
  | String c s' => if Str.is_digit c then int_digits (Str.digit_value c) false s' else None
  | EmptyString => None
  end.

(** [int(s)] in base 10: surrounding white space is dropped, one sign is
    allowed, anything else raises [ValueError]. *)
Definition py_int (s : string) : result Z :=
  let t := Str.strip s in
  let parsed :=
    match t with
    | String c t' =>
        if Ascii.eqb c "-" then option_map Z.opp (int_magnitude t')
        else if Ascii.eqb c "+" then int_magnitude t'
             else int_magnitude t
    | EmptyString => None
    end in
  match parsed with
  | Some n => inr n
  | None => inl (ValueError ("invalid literal for int() with base 10: " +:+ s))
  end.

(** ** The pattern of [get_frequency]

    [re.match] is called with the pattern [([0-9].* )(m|M|d|D)] (written
    here with a space before the first closing parenthesis) and the flags
    [re.M | re.I]: a digit, then a greedy [.*], both in group 1, then one
    unit letter in group 2. *)

Definition is_newline (c : ascii) : bool := Ascii.eqb c "010".

(** [(m|M|d|D)]: one of the four letters (with [re.I] the same four). *)
Definition is_unit_letter (c : ascii) : bool :=
  Ascii.eqb c "m" || Ascii.eqb c "M" || Ascii.eqb c "d" || Ascii.eqb c "D".

(** [.*(m|M|d|D)] matched at the head of [s], the way a backtracking
    matcher does it: the greedy [.*] first takes one more character (any but
    a newline) and only when the rest cannot match does it stop, the unit
    letter then being the next character.  Returns what [.*] consumed and
    the unit letter. *)
Fixpoint match_dotstar_unit (s : string) : option (string * string) :=
  match s with
  | EmptyString => None
  | String c s' =>
      match (if is_newline c then None else match_dotstar_unit s') with
      | Some (g, u) => Some (String c g, u)
      | None =>
          if is_unit_letter c
          then Some (EmptyString, String c EmptyString)
          else None
      end
  end.

(** The match object, as its groups 1 and 2; [None] when there is no match.
    [re.match] anchors the pattern at the start of the string only. *)
Definition re_match_frequency (s : string) : option (string * string) :=
  match s with
  | String c s' =>
      if Str.is_digit c then
        match match_dotstar_unit s' with
        | Some (g, u) => Some (String c g, u)
        | None => None
        end
      else None
  | EmptyString => None
  end.

(** ** [get_frequency] *)

(** [InvalidHistoryFrequencyError(freq)]: the error classes of the project
    take keyword arguments only (they are built as in
    [ExchangeSymbolsNotFound(exchange=..., filename=...)] above), so the
    call with a positional argument raises [TypeError] before there is an
    error to raise. *)
Definition InvalidHistoryFrequencyError_positional (freq : string) : exn :=
  TypeError "__init__() takes 1 positional argument but 2 were given".

Definition get_frequency (freq data_frequency : string)
  : result (Z * string * string) :=
  let freq :=
    if String.eqb freq "daily" then "1d"
    else if String.eqb freq "minute" then "1m"
    else freq in
  match re_match_frequency freq with
  | Some (group1, group2) =>
      candle_size ← py_int group1;
      let unit := group2 in
      if String.eqb (Str.lower unit) "d" then
        let data_frequency :=
          if String.eqb data_frequency "minute" then "daily" else data_frequency in
        mret (candle_size, unit, data_frequency)
      else if String.eqb (Str.lower unit) "m" then
        let data_frequency :=
          if String.eqb data_frequency "daily" then "minute" else data_frequency in
        mret (candle_size, unit, data_frequency)
      else inl (InvalidHistoryFrequencyError_positional freq)
  | None => inl (InvalidHistoryFrequencyError_positional freq)
  end.

(** The alias step of [get_frequency] on its own. *)
Definition normalize_alias (freq : string) : string :=
  if String.eqb freq "daily" then "1d"
  else if String.eqb freq "minute" then "1m"
  else freq.

(** The shape the specification gives for a frequency expression, in its
    words: one or more leading digits followed by a single unit letter drawn
    from m, M, d, D, and nothing else. *)
Fixpoint spec_digits_then_unit (s : string) : bool :=
  match s with
  | String c (String u EmptyString) => Str.is_digit c && is_unit_letter u
  | String c s' => Str.is_digit c && spec_digits_then_unit s'
  | EmptyString => false
  end.

Definition spec_frequency_shape (freq : string) : bool :=
  spec_digits_then_unit (normalize_alias freq).

(** ** The world: file system, environment, clock, network log *)

(** A regular file: what it holds, when it was last modified (nanoseconds
    since the epoch, UTC) and whether the process may open it. *)
Record File : Type := mkFile {
  content : string;
  mtime : Z;
  readable : bool
}.

Record World : Type := mkWorld {
  files : gmap string File;        (* regular files, by path *)
  dirs : gset string;              (* directories, by path *)
  os_environ : gmap string string; (* os.environ *)
  now : Z;                         (* the clock: nanoseconds since the epoch *)
  requests : list string           (* URLs requested so far, oldest first *)
}.

Definition set_files (fs : gmap string File) (w : World) : World :=
  mkWorld fs (dirs w) (os_environ w) (now w) (requests w).

Definition add_dir (p : string) (w : World) : World :=
  mkWorld (files w) ({[p]} ∪ dirs w) (os_environ w) (now w) (requests w).

Definition log_request (url : string) (w : World) : World :=
  mkWorld (files w) (dirs w) (os_environ w) (now w) (requests w ++ [url]).

(** Stateful code: a state transformer that returns or raises.  The world a
    raising computation leaves behind is kept. *)
Definition IO (A : Type) : Type := World → World * result A.

#[export] Instance IO_ret : MRet IO := fun _ v w => (w, inr v).
#[export] Instance IO_bind : MBind IO := fun _ _ f c w =>
  match c w with
  | (w', inl e) => (w', inl e)
  | (w', inr v) => f v w'
  end.

Definition raise {A : Type} (e : exn) : IO A := fun w => (w, inl e).

Definition lift {A : Type} (r : result A) : IO A := fun w => (w, r).

(** [try: body / except <classes>: handler]: [catches] tells which
    exceptions the [except] clause names. *)
Definition try_except {A : Type} (body : IO A) (catches : exn → bool)
    (handler : exn → IO A) : IO A := fun w =>
  match body w with
  | (w', inl e) => if catches e then handler e w' else (w', inl e)
  | (w', inr v) => (w', inr v)
  end.

(** ** Library calls *)

(** [os.path.join(a, *p)] of [posixpath]: a component that starts with a
    slash restarts the path, a separator is inserted unless the path so far
    is empty or ends with one, and a component that is [None] raises
    [TypeError]. *)
Definition join_step (path b : string) : string :=
  if Str.startswith "/" b then b
  else if String.eqb path "" || Str.endswith "/" path then path +:+ b
       else path +:+ "/" +:+ b.

Fixpoint join_from (path : string) (p : list (option string)) : result string :=
  match p with
  | [] => inr path
  | None :: _ =>
      inl (TypeError "expected str, bytes or os.PathLike object, not NoneType")
  | Some b :: p' => join_from (join_step path b) p'
  end.

Definition os_path_join (a : string) (p : list (option string)) : result string :=
  join_from a p.

(** [os.path.isfile(path)]. *)
Definition os_path_isfile (path : string) : IO bool := fun w =>
  (w, inr (bool_decide (is_Some (files w !! path)))).

(** [open(path)] followed by reading the whole file; opening a missing or
    unreadable file raises [IOError]. *)
Definition open_read (path : string) : IO string := fun w =>
  match files w !! path with
  | Some f =>
      if readable f then (w, inr (content f))
      else (w, inl (IOError "Permission denied"))
  | None => (w, inl (IOError "No such file or directory"))
  end.

(** [pd.Timestamp('now', tz='UTC')], as nanoseconds since the epoch. *)
Definition timestamp_now : IO Z := fun w => (w, inr (now w)).

Definition day_ns : Z := 86400000000000.
Definition minute_ns : Z := 60000000000.

(** [pd.Timedelta(d).days] for a difference [d] in nanoseconds: the number
    of whole days, rounded towards minus infinity. *)
Definition timedelta_days (d : Z) : Z := d / day_ns.

(** Modelled from the spec: [ensure_directory] of [catalyst.utils.paths]
    is not among the sources; the specification has it create the directory
    and its parents when absent, without an error when already present. *)
Definition ensure_directory (path : string) : IO unit := fun w =>
  (add_dir path w, inr tt).

(** Modelled from the spec: [last_modified_time] of [catalyst.utils.paths]
    is not among the sources; the specification has the age of a snapshot
    come from the modification time of its file. *)
Definition last_modified_time (path : string) : IO Z := fun w =>
  match files w !! path with
  | Some f => (w, inr (mtime f))
  | None => (w, inl (IOError "No such file or directory"))
  end.

(** ** Tables *)

(** A [pandas.DataFrame] with a [DatetimeIndex]: named columns and rows of
    cells, each row under its time stamp (nanoseconds since the epoch).  A
    cell is a number or NaN ([None]). *)
Record DataFrame (num : Type) : Type := mkDataFrame {
  columns : list string;
  rows : list (Z * list (option num))
}.
Arguments mkDataFrame {num} _ _.
Arguments columns {num} _.
Arguments rows {num} _.

(** [pd.DataFrame()]. *)
Definition empty_frame {num : Type} : DataFrame num := mkDataFrame [] [].

(** ** The symbol cache and the algorithm store *)

Definition SYMBOLS_URL_prefix : string :=
  "https://s3.amazonaws.com/enigmaco/catalyst-exchanges/".

(** [SYMBOLS_URL.format(exchange=exchange_name)]. *)
Definition SYMBOLS_URL_format (exchange : string) : string :=
  SYMBOLS_URL_prefix +:+ exchange +:+ "/symbols.json".

(** [not environ]: true of [None] and of an empty mapping. *)
Definition not_environ (environ : option (gmap string string)) : bool :=
  match environ with
  | None => true
  | Some e => bool_decide (e = ∅)
  end.

Section Store.

(** The payloads: parsed JSON, unpickled objects, the numbers of a table. *)
Context {Json Obj num : Type}.

(** [data_root] of [catalyst.utils.paths]: the data directory named by an
    environment. *)
Variable data_root : gmap string string → string.

(** The network behind [urlretrieve]: given the clock, the URL and the
    target path it turns the files into new files and returns or raises.
    Nothing is assumed of it. *)
Variable network :
  Z → string → string → gmap string File → gmap string File * result unit.

(** The parsers, on the content of a file: [json.load], [pickle.load] and
    [pd.read_csv(handle, index_col=0, parse_dates=True)]. *)
Variable json_load : string → result Json.
Variable pickle_load : string → result Obj.
Variable read_csv : string → result (DataFrame num).

(** [request.urlretrieve(url=url, filename=filename)]: the request is
    logged, then the network does what it does to the files. *)
Definition urlretrieve (url filename : string) : IO unit := fun w =>
  let w1 := log_request url w in
  let '(fs, r) := network (now w1) url filename (files w1) in
  (set_files fs w1, r).

(** The environment in force: the argument, or [os.environ] when the
    argument is missing or empty. *)
Definition resolve_environ (environ : option (gmap string string))
  : IO (gmap string string) := fun w =>
  (w, inr (if not_environ environ then os_environ w else default ∅ environ)).

Definition get_exchange_folder (exchange_name : string)
    (environ : option (gmap string string)) : IO string :=
  environ ← resolve_environ environ;
  let root := data_root environ in
  exchange_folder ← lift (os_path_join root [Some "exchanges"; Some exchange_name]);
  ensure_directory exchange_folder;;
  mret exchange_folder.

Definition get_exchange_symbols_filename (exchange_name : string)
    (environ : option (gmap string string)) : IO string :=
  exchange_folder ← get_exchange_folder exchange_name environ;
  lift (os_path_join exchange_folder [Some "symbols.json"]).

(** The source resolves the file name without passing [environ] on. *)
Definition download_exchange_symbols (exchange_name : string)
    (environ : option (gmap string string)) : IO unit :=
  filename ← get_exchange_symbols_filename exchange_name None;
  let url := SYMBOLS_URL_format exchange_name in
  response ← urlretrieve url filename;
  mret response.

Definition get_exchange_symbols (exchange_name : string)
    (environ : option (gmap string string)) : IO Json :=
  filename ← get_exchange_symbols_filename exchange_name None;
  present ← os_path_isfile filename;
  refresh ←
    (if negb present then mret true
     else
       t_now ← timestamp_now;
       t_file ← last_modified_time filename;
       mret (1 <? timedelta_days (t_now - t_file)));
  (if refresh : bool then download_exchange_symbols exchange_name environ
   else mret tt);;
  present ← os_path_isfile filename;
  if present : bool then
    data_file ← open_read filename;
    lift (json_load data_file)
  else raise (ExchangeSymbolsNotFound exchange_name filename).

Definition get_algo_folder (algo_name : option string)
    (environ : option (gmap string string)) : IO string :=
  environ ← resolve_environ environ;
  let root := data_root environ in
  algo_folder ← lift (os_path_join root [Some "live_algos"; algo_name]);
  ensure_directory algo_folder;;
  mret algo_folder.

(** [folder] joined with [rel_path] when one is given. *)
Definition with_rel_path (folder : string) (rel_path : option string)
  : IO string :=
  match rel_path with
  | Some r => lift (os_path_join folder [Some r])
  | None => mret folder
  end.

(** The result is [None] for Python's [None]. *)
Definition get_algo_object (algo_name : option string) (key : string)
    (environ : option (gmap string string)) (rel_path : option string)
  : IO (option Obj) :=
  match algo_name with
  | None => mret None
  | Some _ =>
      folder ← get_algo_folder algo_name environ;
      folder ← with_rel_path folder rel_path;
      filename ← lift (os_path_join folder [Some (key +:+ ".p")]);
      present ← os_path_isfile filename;
      if present : bool then
        try_except
          (handle ← open_read filename;
           obj ← lift (pickle_load handle);
           mret (Some obj))
          (fun _ => true)
          (fun _ => mret None)
      else mret None
  end.

Definition get_algo_df (algo_name : option string) (key : string)
    (environ : option (gmap string string)) (rel_path : option string)
  : IO (DataFrame num) :=
  folder ← get_algo_folder algo_name environ;
  folder ← with_rel_path folder rel_path;
  filename ← lift (os_path_join folder [Some (key +:+ ".csv")]);
  present ← os_path_isfile filename;
  if present : bool then
    try_except
      (handle ← open_read filename;
       lift (read_csv handle))
      is_IOError
      (fun _ => mret empty_frame)
  else mret empty_frame.

End Store.

(** ** Resampling *)

(** The aggregations [resample_history_df] passes to [agg]. *)
Inductive how : Type := First | Max | Min | Last | Sum.

Section Resample.

Context {num : Type}.

(** Addition, zero and the strict order of the numbers of a table. *)
Variable add : num → num → num.
Variable zero : num.
Variable ltb : num → num → bool.

(** What [sum] gives for a group without any number: NaN in the pandas the
    project pins, zero in later ones. *)
Variable sum_of_nothing : option num.

(** The numbers of a list of cells, NaN skipped. *)
Definition values (cells : list (option num)) : list num :=
  omap id cells.

(** The group reductions of pandas, which all skip NaN: the first and the
    last number, the running maximum and minimum (replaced when a strictly
    greater, resp. smaller, number comes), the sum from zero. *)
Definition aggregate (h : how) (cells : list (option num)) : option num :=
  match h, values cells with
  | Sum, [] => sum_of_nothing
  | _, [] => None
  | First, v :: _ => Some v
  | Last, v :: vs => Some (List.last vs v)
  | Max, v :: vs => Some (fold_left (fun m x => if ltb m x then x else m) vs v)
  | Min, v :: vs => Some (fold_left (fun m x => if ltb x m then x else m) vs v)
  | Sum, v :: vs => Some (fold_left add (v :: vs) zero)
  end.

(** Time stamps are put in order before grouping, rows with equal stamps
    keeping their order (pandas sorts the index with a stable sort). *)
Fixpoint insert_row (r : Z * list (option num))
    (l : list (Z * list (option num))) : list (Z * list (option num)) :=
  match l with
  | [] => [r]
  | r' :: l' => if fst r <=? fst r' then r :: l else r' :: insert_row r l'
  end.

Definition sort_index (l : list (Z * list (option num)))
  : list (Z * list (option num)) :=
  fold_right insert_row [] l.

(** The smallest and the largest time stamp, when there is a row. *)
Definition index_min (t : Z) (l : list (Z * list (option num))) : Z :=
  fold_left (fun m r => Z.min m (fst r)) l t.

Definition index_max (t : Z) (l : list (Z * list (option num))) : Z :=
  fold_left (fun m r => Z.max m (fst r)) l t.

Definition time_span (l : list (Z * list (option num))) : option (Z * Z) :=
  match l with
  | [] => None
  | (t, _) :: l' => Some (index_min t l', index_max t l')
  end.

(** The left edge of the first bucket: buckets are [width] long and
    counted from midnight of the day of the first time stamp, midnight
    being that of the time zone of the index (time stamps are read in UTC
    here, as the tables of the project are). *)
Definition bucket_origin (first width : Z) : Z :=
  first - ((first mod day_ns) mod width).

(** The rows with a time stamp in [[lo, lo + width)]. *)
Definition in_bucket (lo width : Z) (r : Z * list (option num)) : bool :=
  (lo <=? fst r) && (fst r <? lo + width).

Definition bucket (lo width : Z) (l : list (Z * list (option num)))
  : list (Z * list (option num)) :=
  List.filter (in_bucket lo width) l.

(** Column [j] of some rows; a row too short counts as NaN there. *)
Definition column_cells (j : nat) (l : list (Z * list (option num)))
  : list (option num) :=
  map (fun r => nth j (snd r) None) l.

(** The row of the bucket that starts at [lo]: its label is the left edge,
    its cells the reductions of the columns. *)
Definition bucket_row (h : how) (ncols : nat) (width : Z)
    (l : list (Z * list (option num))) (lo : Z) : Z * list (option num) :=
  (lo, map (fun j => aggregate h (column_cells j (bucket lo width l)))
           (seq 0 ncols)).

(** [df.resample(rule).agg(how)] for a rule of [width] nanoseconds, with
    the defaults of a minute rule: buckets closed and labelled on the
    left, one output row for every bucket from the one of the first time
    stamp to the one of the last, empty buckets included. *)
Definition resample_agg (df : DataFrame num) (width : Z) (h : how)
  : DataFrame num :=
  let sorted := sort_index (rows df) in
  match time_span sorted with
  | None => mkDataFrame (columns df) []
  | Some (first, last) =>
      let origin := bucket_origin first width in
      let count := Z.to_nat ((last - origin) / width + 1) in
      mkDataFrame (columns df)
        (map (fun k => bucket_row h (length (columns df)) width sorted
                         (origin + Z.of_nat k * width))
             (seq 0 count))
  end.

(** The aggregation chosen for a field; [None] is the [else] branch. *)
Definition field_how (field : string) : option how :=
  if String.eqb field "open" then Some First
  else if String.eqb field "high" then Some Max
  else if String.eqb field "low" then Some Min
  else if String.eqb field "close" then Some Last
  else if String.eqb field "volume" then Some Sum
  else None.

(** The rule ['{}T'.format(candle_size)] is [candle_size] minutes. *)
Definition resample_history_df (df : DataFrame num) (candle_size : Z)
    (field : string) : result (DataFrame num) :=
  if 1 <? candle_size then
    agg ← match field_how field with
          | Some h => inr h
          | None => inl (ValueError "Invalid field.")
          end;
    mret (resample_agg df (candle_size * minute_ns) agg)
  else mret df.

End Resample.

(** ** Concrete surroundings

    The collaborators the module is run against in the examples below. *)

(** What a URL answers: a complete body, a refusal (unknown host, HTTP
    error status) or a body cut short of its announced length. *)
Inductive answer : Type :=
| Complete (body : string)
| Refused (reason : string)
| CutShort (body : string).

(** [urlretrieve] of [urllib] against such answers: the URL is opened first
    and a refusal raises before the target file is touched; otherwise the
    body received is written over the target, and a short body raises
    afterwards. *)
Definition urllib_network (remote : string → answer)
    (clock : Z) (url filename : string) (fs : gmap string File)
  : gmap string File * result unit :=
  match remote url with
  | Complete body => (<[filename := mkFile body clock true]> fs, inr tt)
  | Refused reason => (fs, inl (URLError reason))
  | CutShort body =>
      (<[filename := mkFile body clock true]> fs,
       inl (URLError "retrieval incomplete"))
  end.

(** A data root that does not depend on the environment. *)
Definition home_data_root (_ : gmap string string) : string :=
  "/home/user/.catalyst/data".

(** A remote that refuses every request. *)
Definition offline (_ : string) : answer := Refused "Name or service not known".

(** A remote that answers every request with the same complete body. *)
Definition online (_ : string) : answer := Complete "[]".

(** Parsers that hand the text back; [csv_rejects_empty] is a table reader
    that, like [pd.read_csv], raises [EmptyDataError] (not an [IOError]) on
    a file without any column, and reads anything else as an empty table. *)
Definition text_json (s : string) : result string := inr s.

Definition text_pickle (s : string) : result string := inr s.

Definition csv_rejects_empty (s : string) : result (DataFrame Z) :=
  if String.eqb s "" then inl (LibraryError "EmptyDataError")
  else inr empty_frame.

Definition bitfinex_symbols : string :=
  "/home/user/.catalyst/data/exchanges/bitfinex/symbols.json".

(** A world whose only file is the bitfinex snapshot, written at time 0;
    the clock reads [clock]. *)
Definition world_with_snapshot (clock : Z) : World :=
  mkWorld {[ bitfinex_symbols := mkFile "{}" 0 true ]} ∅ ∅ clock [].

(** A world whose only file is an empty table of the algorithm [algo]. *)
Definition world_with_empty_csv : World :=
  mkWorld {[ "/home/user/.catalyst/data/live_algos/algo/orders.csv"
               := mkFile "" 0 true ]} ∅ ∅ 0 [].

(** Five one-minute rows of one column [close] holding 1 to 5, the first
    row at [start]. *)
Definition five_closes (start : Z) : DataFrame Z :=
  mkDataFrame ["close"]
    (map (fun i => (start + i * minute_ns, [Some (i + 1)])) [0; 1; 2; 3; 4]).

(** 2017-01-01 00:00:00 UTC. *)
Definition new_year_2017 : Z := 1483228800 * 1000000000.

(** ** Paths and outcomes, for the statements below *)

(** The environment [resolve_environ] settles on. *)
Definition environ_in_force (environ : option (gmap string string)) (w : World)
  : gmap string string :=
  if not_environ environ then os_environ w else default ∅ environ.

(** The path [get_exchange_symbols_filename] computes. *)
Definition symbols_path (data_root : gmap string string → string)
    (exchange_name : string) (environ : option (gmap string string))
    (w : World) : string :=
  join_step
    (join_step (join_step (data_root (environ_in_force environ w)) "exchanges")
       exchange_name)
    "symbols.json".

(** The path of the file behind an algorithm name, a key and an optional
    relative path, with extension [ext]. *)
Definition algo_file_path (data_root : gmap string string → string)
    (algo_name key ext : string) (environ : option (gmap string string))
    (rel_path : option string) (w : World) : string :=
  let folder :=
    join_step (join_step (data_root (environ_in_force environ w)) "live_algos")
      algo_name in
  join_step
    (match rel_path with Some r => join_step folder r | None => folder end)
    (key +:+ ext).

(** Whether [get_exchange_symbols] finds the snapshot at [path] missing or
    more than one whole day old. *)
Definition refresh_due (path : string) (w : World) : bool :=
  match files w !! path with
  | None => true
  | Some f => 1 <? timedelta_days (now w - mtime f)
  end.

(** Opening and parsing the snapshot at [path] among the files [fs], or the
    symbols-not-found error when there is none. *)
Definition read_snapshot {Json : Type} (json_load : string → result Json)
    (exchange_name path : string) (fs : gmap string File) : result Json :=
  match fs !! path with
  | Some f =>
      if readable f then json_load (content f)
      else inl (IOError "Permission denied")
  | None => inl (ExchangeSymbolsNotFound exchange_name path)
  end.

(** ** The reductions, as the specification words them *)

(** [v] is what the specification asks of field aggregation [h] on the
    numbers [vs] of a bucket, listed in time order: the first of them, a
    greatest one, a least one, the last of them, their sum. *)
Definition reduces {num : Type} (add : num → num → num) (zero : num)
    (ltb : num → num → bool) (h : how) (vs : list num) (v : num) : Prop :=
  match h with
  | First => head vs = Some v
  | Max => v ∈ vs ∧ ∀ x, x ∈ vs → ltb v x = false
  | Min => v ∈ vs ∧ ∀ x, x ∈ vs → ltb x v = false
  | Last => last vs = Some v
  | Sum => v = fold_left add vs zero
  end.

(** ** Writing: the rest of the store *)

(** What [json.load] returns and [json.dump] takes. *)
#[warnings="-register-all"]
Inductive json_value : Type :=
| JNull
| JBool (b : bool)
| JNum (n : Z)
| JStr (s : string)
| JList (l : list json_value)
| JDict (entries : list (string * json_value)).

(** The file at [path] once [body] has been written to it at the time of
    the world; a file that was there keeps its permissions. *)
Definition written (path body : string) (w : World) : World :=
  set_files
    (<[path := mkFile body (now w)
                 (match files w !! path with
                  | Some f => readable f
                  | None => true
                  end)]> (files w))
    w.

Section Writes.

Context {Obj num : Type}.

Variable data_root : gmap string string → string.

(** Whether the system lets a path be opened for writing (its directory is
    there, the permissions allow it).  Nothing is assumed of it. *)
Variable may_write : World → string → bool.

(** The serializers: the text they write to the handle and whether they
    then return or raise ([pickle.dump], [df.to_csv] and [json.dump]). *)
Variable pickle_dump : Obj → string * result unit.
Variable to_csv : DataFrame num → string * result unit.
Variable json_dump : json_value → string * result unit.

Variable json_load : string → result json_value.

(** [open(path, 'w')] (or ['wb'], ['wt']): the file is created, or emptied
    when there is one; [IOError] when the system refuses. *)
Definition open_write (path : string) : IO unit := fun w =>
  if may_write w path then (written path "" w, inr tt)
  else (w, inl (IOError "cannot open for writing")).

(** Serializing to the open handle: what was produced is in the file,
    whether or not the serializer then raises. *)
Definition dump_to (path : string) (out : string * result unit) : IO unit :=
  fun w => (written path (fst out) w, snd out).

(** [folder] joined with [rel_path] when one is given, and created. *)
Definition with_rel_path_created (folder : string) (rel_path : option string)
  : IO string :=
  match rel_path with
  | Some r =>
      folder ← lift (os_path_join folder [Some r]);
      ensure_directory folder;;
      mret folder
  | None => mret folder
  end.

Definition save_algo_object (algo_name : option string) (key : string)
    (obj : Obj) (environ : option (gmap string string))
    (rel_path : option string) : IO unit :=
  folder ← get_algo_folder data_root algo_name environ;
  folder ← with_rel_path_created folder rel_path;
  filename ← lift (os_path_join folder [Some (key +:+ ".p")]);
  open_write filename;;
  dump_to filename (pickle_dump obj).

Definition save_algo_df (algo_name : option string) (key : string)
    (df : DataFrame num) (environ : option (gmap string string))
    (rel_path : option string) : IO unit :=
  folder ← get_algo_folder data_root algo_name environ;
  folder ← with_rel_path_created folder rel_path;
  filename ← lift (os_path_join folder [Some (key +:+ ".csv")]);
  open_write filename;;
  dump_to filename (to_csv df).

(** [dict(name=exchange_name, key='', secret='')]. *)
Definition auth_placeholder (exchange_name : string) : json_value :=
  JDict [("name", JStr exchange_name); ("key", JStr ""); ("secret", JStr "")]%string.

Definition get_exchange_auth (exchange_name : string)
    (environ : option (gmap string string)) : IO json_value :=
  exchange_folder ← get_exchange_folder data_root exchange_name environ;
  filename ← lift (os_path_join exchange_folder [Some "auth.json"]);
  present ← os_path_isfile filename;
  if present : bool then
    data_file ← open_read filename;
    lift (json_load data_file)
  else
    let data := auth_placeholder exchange_name in
    open_write filename;;
    dump_to filename (json_dump data);;
    mret data.

Definition get_exchange_minute_writer_root (exchange_name : string)
    (environ : option (gmap string string)) : IO string :=
  exchange_folder ← get_exchange_folder data_root exchange_name environ;
  minute_data_folder ← lift (os_path_join exchange_folder [Some "minute_data"]);
  ensure_directory minute_data_folder;;
  mret minute_data_folder.

Definition get_exchange_bundles_folder (exchange_name : string)
    (environ : option (gmap string string)) : IO string :=
  exchange_folder ← get_exchange_folder data_root exchange_name environ;
  temp_bundles ← lift (os_path_join exchange_folder [Some "temp_bundles"]);
  ensure_directory temp_bundles;;
  mret temp_bundles.

End Writes.

(** ** Assets *)

Section Assets.

(** A trading pair and an exchange, as far as the module looks at them:
    the [symbol] of a pair, the methods [get_assets] and [get_asset] of an
    exchange, which return or raise. *)
Context {Asset Exchange : Type}.
Variable symbol : Asset → string.
Variable get_assets : Exchange → result (list Asset).
Variable get_asset : Exchange → string → result Asset.

(** [assets] is one trading pair ([inl]) or a list of them ([inr]). *)
Definition get_symbols_string (assets : Asset + list Asset) : string :=
  let array := match assets with inl a => [a] | inr l => l end in
  String.concat ", " (map symbol array).

(** A loop that collects the results of a call, stopping at the first one
    that raises. *)
Fixpoint collect {A B : Type} (f : A → result B) (l : list A) : result (list B) :=
  match l with
  | [] => inr []
  | x :: l' =>
      y ← f x;
      ys ← collect f l';
      mret (y :: ys)
  end.

(** [set.intersection( *sets )]: called without a set it raises [TypeError],
    otherwise it is the first set cut by the others. *)
Definition set_intersection (sets : list (gset string)) : result (gset string) :=
  match sets with
  | [] => inl (TypeError "descriptor 'intersection' of 'set' object needs an argument")
  | s :: rest => inr (foldl (∩) s rest)
  end.

(** [exchanges] is the mapping from names to exchanges, in the order it is
    iterated in; a set is iterated in the order of [elements]. *)
Definition get_common_assets (exchanges : list (string * Exchange))
  : result (list Asset) :=
  symbols ← collect (fun e => l ← get_assets (snd e); mret (map symbol l))
               exchanges;
  inter_symbols ← set_intersection (map list_to_set symbols);
  per_symbol ← collect (fun s => collect (fun e => get_asset (snd e) s) exchanges)
                  (elements inter_symbols);
  mret (concat per_symbol).

End Assets.

(** ** Frequency expressions, read as decimal numbers *)

Fixpoint all_digits (s : string) : bool :=
  match s with
  | EmptyString => true
  | String c s' => Str.is_digit c && all_digits s'
  end.

(** The number a string of digits denotes in base ten, after [acc]. *)
Fixpoint decimal_from (acc : Z) (s : string) : Z :=
  match s with
  | EmptyString => acc
  | String c s' => decimal_from (10 * acc + Str.digit_value c) s'
  end.

Definition decimal_value (s : string) : Z := decimal_from 0 s.

Fixpoint has_unit_letter (s : string) : bool :=
  match s with
  | EmptyString => false
  | String c s' => is_unit_letter c || has_unit_letter s'
  end.


(** The path [get_exchange_auth] reads and writes. *)
Definition auth_path (data_root : gmap string string → string)
    (exchange_name : string) (environ : option (gmap string string))
    (w : World) : string :=
  join_step
    (join_step (join_step (data_root (environ_in_force environ w)) "exchanges")
       exchange_name)
    "auth.json".

(** The folder of a named algorithm, and the world once a save has made
    its folders: the folder of the algorithm and, when a relative path is
    given, the folder under it. *)
Definition algo_folder_path (data_root : gmap string string → string)
    (algo_name : string) (environ : option (gmap string string)) (w : World)
  : string :=
  join_step (join_step (data_root (environ_in_force environ w)) "live_algos")
    algo_name.

Definition algo_folders_made (data_root : gmap string string → string)
    (algo_name : string) (environ : option (gmap string string))
    (rel_path : option string) (w : World) : World :=
  let folder := algo_folder_path data_root algo_name environ w in
  match rel_path with
  | Some r => add_dir (join_step folder r) (add_dir folder w)
  | None => add_dir folder w
  end.

(** More surroundings for the examples: a system that lets every file be
    written, serializers that write the text they are given, one that fails
    before writing anything, and an unpickler that rejects an empty file. *)
Definition always_writable (_ : World) (_ : string) : bool := true.

Definition text_dump (s : string) : string * result unit := (s, inr tt).

Definition failing_dump (_ : string) : string * result unit :=
  (EmptyString, inl (LibraryError "PicklingError")).

Definition pickle_rejects_empty (s : string) : result string :=
  if String.eqb s "" then inl (LibraryError "EOFError") else inr s.

(** A table writer that writes one empty line, whatever the table. *)
Definition blank_line_csv (_ : DataFrame Z) : string * result unit :=
  (String "010" EmptyString, inr tt).

(** A JSON reader that returns the text as a JSON string, a JSON writer
    that writes a pair of braces, and a world whose only file is the
    credentials file of bitfinex. *)
Definition json_as_text (s : string) : result json_value := inr (JStr s).

Definition dump_braces (_ : json_value) : string * result unit :=
  ("{}"%string, inr tt).

Definition world_with_auth : World :=
  mkWorld {[ "/home/user/.catalyst/data/exchanges/bitfinex/auth.json"
               := mkFile "{}" 0 true ]} ∅ ∅ 0 [].

(** An exchange that is the list of the symbols it trades, its assets
    being their symbols: [get_asset] raises for a symbol it does not list. *)
Definition listed_asset (listing : list string) (s : string) : result string :=
  if bool_decide (s ∈ listing) then inr s
  else inl (LibraryError "SymbolNotFoundOnExchange").

Definition two_exchanges : list (string * list string) :=
  [("bitfinex", ["btc_usd"; "eth_usd"]); ("poloniex", ["eth_usd"; "xrp_usd"])]%string.

(** * Properties *)

(** ** Digits, white space and [int] *)

Lemma is_digit_code (c : ascii) :
  Str.is_digit c = true ↔ 48 <= Str.code c <= 57.
Proof. unfold Str.is_digit. rewrite andb_true_iff, !Z.leb_le. tauto. Qed.

Lemma digit_not_space (c : ascii) :
  Str.is_digit c = true → Str.is_space c = false.
Proof.
  rewrite is_digit_code. intros Hc. unfold Str.is_space.
  repeat match goal with
         | |- context [?a <=? ?b] => destruct (Z.leb_spec a b)
         | |- context [?a =? ?b] => destruct (Z.eqb_spec a b)
         end; simpl; try reflexivity; lia.
Qed.

Lemma digit_not_sign (c : ascii) :
  Str.is_digit c = true → Ascii.eqb c "-" = false ∧ Ascii.eqb c "+" = false.
Proof.
  rewrite is_digit_code. intros Hc.
  split; apply Ascii.eqb_neq; intros ->; vm_compute in Hc; intuition congruence.
Qed.

Lemma digit_value_nonneg (c : ascii) :
  Str.is_digit c = true → 0 <= Str.digit_value c.
Proof. rewrite is_digit_code. unfold Str.digit_value. lia. Qed.

Lemma int_digits_nonneg (s : string) :
  ∀ acc b n, 0 <= acc → int_digits acc b s = Some n → 0 <= n.
Proof.
  induction s as [|c s IH]; intros acc b n Hacc; simpl.
  - destruct b; [discriminate | intros [= <-]; exact Hacc].
  - destruct (Str.is_digit c) eqn:Hd.
    + apply IH. pose proof (digit_value_nonneg c Hd). lia.
    + destruct (Ascii.eqb c "_"); [| discriminate].
      destruct b; [discriminate |]. apply IH. exact Hacc.
Qed.

(** Stripping keeps a leading digit in place. *)
Lemma strip_digit_head (c : ascii) (g : string) :
  Str.is_digit c = true → ∃ r, Str.strip (String c g) = String c r.
Proof.
  intros Hd. unfold Str.strip. simpl.
  rewrite (digit_not_space c Hd). simpl.
  destruct (Str.rstrip g); [rewrite (digit_not_space c Hd) |]; eauto.
Qed.

(** On a string that starts with a digit [int] takes neither sign branch,
    so what it returns is not negative. *)
Lemma py_int_digit_head_nonneg (c : ascii) (g : string) (n : Z) :
  Str.is_digit c = true → py_int (String c g) = inr n → 0 <= n.
Proof.
  intros Hd. unfold py_int.
  destruct (strip_digit_head c g Hd) as [r ->].
  destruct (digit_not_sign c Hd) as [-> ->].
  unfold int_magnitude. rewrite Hd.
  destruct (int_digits (Str.digit_value c) false r) as [m|] eqn:Hm; [| discriminate].
  intros [= <-]. eapply int_digits_nonneg; [| exact Hm].
  apply digit_value_nonneg, Hd.
Qed.

(** ** The pattern *)

Lemma re_match_frequency_head (s g1 u : string) :
  re_match_frequency s = Some (g1, u) →
  ∃ c g, g1 = String c g ∧ Str.is_digit c = true.
Proof.
  destruct s as [|c s]; simpl; [discriminate |].
  destruct (Str.is_digit c) eqn:Hd; [| discriminate].
  destruct (match_dotstar_unit s) as [[g u']|]; [| discriminate].
  intros [= <- <-]. eauto.
Qed.

(** Group 2 is one of the four unit letters. *)
Lemma match_dotstar_unit_letter (s g u : string) :
  match_dotstar_unit s = Some (g, u) →
  ∃ c, u = String c EmptyString ∧ is_unit_letter c = true.
Proof.
  revert g u. induction s as [|c s IH]; intros g u; simpl; [discriminate |].
  destruct (if is_newline c then None else match_dotstar_unit s)
    as [[g' u']|] eqn:Hrest.
  - intros [= <- <-]. destruct (is_newline c); [discriminate |]. eauto.
  - destruct (is_unit_letter c) eqn:Hu; [| discriminate].
    intros [= <- <-]. eauto.
Qed.

Lemma unit_letter_lower (c : ascii) :
  is_unit_letter c = true →
  Str.lower (String c EmptyString) = "d"%string ∨
  Str.lower (String c EmptyString) = "m"%string.
Proof.
  unfold is_unit_letter. rewrite !orb_true_iff, !Ascii.eqb_eq.
  intros [[[-> | ->] | ->] | ->]; vm_compute; auto.
Qed.

(** ** [get_frequency] *)

Lemma get_frequency_unfold (freq data_frequency : string) :
  get_frequency freq data_frequency =
  match re_match_frequency (normalize_alias freq) with
  | Some (group1, unit) =>
      match py_int group1 with
      | inl e => inl e
      | inr candle_size =>
          if String.eqb (Str.lower unit) "d" then
            inr (candle_size, unit,
                 if String.eqb data_frequency "minute" then "daily"%string
                 else data_frequency)
          else if String.eqb (Str.lower unit) "m" then
            inr (candle_size, unit,
                 if String.eqb data_frequency "daily" then "minute"%string
                 else data_frequency)
          else inl (InvalidHistoryFrequencyError_positional (normalize_alias freq))
      end
  | None => inl (InvalidHistoryFrequencyError_positional (normalize_alias freq))
  end.
Proof.
  unfold get_frequency, normalize_alias.
  destruct (re_match_frequency _) as [[g1 g2]|]; [| reflexivity].
  destruct (py_int g1); reflexivity.
Qed.

(** What a successful call went through. *)
Lemma get_frequency_inr (freq data_frequency : string) (n : Z) (u d : string) :
  get_frequency freq data_frequency = inr (n, u, d) →
  ∃ g1, re_match_frequency (normalize_alias freq) = Some (g1, u) ∧
        py_int g1 = inr n ∧
        ((Str.lower u = "d"%string ∧
          d = if String.eqb data_frequency "minute" then "daily"%string
              else data_frequency) ∨
         (Str.lower u = "m"%string ∧
          d = if String.eqb data_frequency "daily" then "minute"%string
              else data_frequency)).
Proof.
  rewrite get_frequency_unfold.
  destruct (re_match_frequency _) as [[g1 g2]|]; [| discriminate].
  destruct (py_int g1) as [e|m] eqn:Hp; [discriminate |].
  destruct (String.eqb (Str.lower g2) "d") eqn:Hd.
  - intros [= <- <- <-]. apply String.eqb_eq in Hd.
    exists g1. split; [reflexivity |]. split; [exact Hp |].
    left. split; [exact Hd | reflexivity].
  - destruct (String.eqb (Str.lower g2) "m") eqn:Hm; [| discriminate].
    intros [= <- <- <-]. apply String.eqb_eq in Hm.
    exists g1. split; [reflexivity |]. split; [exact Hp |].
    right. split; [exact Hm | reflexivity].
Qed.

(** A string the pattern does not match is rejected: the [raise] statement
    is reached, and what it raises is the [TypeError] of the positional
    call. *)
Lemma get_frequency_no_match (freq data_frequency : string) :
  re_match_frequency (normalize_alias freq) = None →
  get_frequency freq data_frequency =
  inl (TypeError "__init__() takes 1 positional argument but 2 were given").
Proof. intros H. rewrite get_frequency_unfold, H. reflexivity. Qed.

Example get_frequency_5m :
  get_frequency "5m" "daily" = inr (5, "m", "minute")%string.
Proof. reflexivity. Qed.

Example get_frequency_15D :
  get_frequency "15D" "minute" = inr (15, "D", "daily")%string.
Proof. reflexivity. Qed.

Example get_frequency_abc :
  get_frequency "abc" "daily" =
  inl (TypeError "__init__() takes 1 positional argument but 2 were given").
Proof. reflexivity. Qed.

(** ** Running [IO] code *)

Lemma IO_bind_eq {A B : Type} (c : IO A) (f : A → IO B) (w : World) :
  (c ≫= f) w =
  match c w with
  | (w', inl e) => (w', inl e)
  | (w', inr v) => f v w'
  end.
Proof. reflexivity. Qed.

Lemma IO_ret_eq {A : Type} (v : A) (w : World) :
  (mret v : IO A) w = (w, inr v).
Proof. reflexivity. Qed.

Lemma files_add_dir (p : string) (w : World) : files (add_dir p w) = files w.
Proof. reflexivity. Qed.

Lemma now_add_dir (p : string) (w : World) : now (add_dir p w) = now w.
Proof. reflexivity. Qed.

Lemma os_path_isfile_run (path : string) (w : World) :
  os_path_isfile path w =
  (w, inr (match files w !! path with Some _ => true | None => false end)).
Proof. unfold os_path_isfile. destruct (files w !! path); reflexivity. Qed.

Lemma last_modified_time_run (path : string) (w : World) (f : File) :
  files w !! path = Some f → last_modified_time path w = (w, inr (mtime f)).
Proof. intros H. unfold last_modified_time. rewrite H. reflexivity. Qed.

Lemma open_then_parse {A : Type} (parse : string → result A) (path : string)
    (w : World) :
  (open_read path ≫= λ handle, lift (parse handle)) w =
  (w, match files w !! path with
      | Some f =>
          if readable f then parse (content f)
          else inl (IOError "Permission denied")
      | None => inl (IOError "No such file or directory")
      end).
Proof.
  rewrite IO_bind_eq. unfold open_read.
  destruct (files w !! path) as [f|]; [destruct (readable f) |]; reflexivity.
Qed.

(** One step of a sequence: expose the first action. *)
Ltac io_bind := rewrite IO_bind_eq; cbv beta iota delta [negb].

(** ** The symbol cache *)

Section StoreFacts.

Context {Json Obj num : Type}.
Variable data_root : gmap string string → string.
Variable network :
  Z → string → string → gmap string File → gmap string File * result unit.
Variable json_load : string → result Json.
Variable pickle_load : string → result Obj.
Variable read_csv : string → result (DataFrame num).

Lemma get_exchange_symbols_filename_run (name : string)
    (environ : option (gmap string string)) (w : World) :
  get_exchange_symbols_filename data_root name environ w =
  (add_dir (join_step (join_step (data_root (environ_in_force environ w))
                         "exchanges") name) w,
   inr (symbols_path data_root name environ w)).
Proof. reflexivity. Qed.

(** The snapshot is read after the refresh step, whatever that step was. *)
Lemma read_after_refresh (name path : string) (w : World) :
  (os_path_isfile path ≫= λ present : bool,
     if present
     then open_read path ≫= λ data_file, lift (json_load data_file)
     else raise (ExchangeSymbolsNotFound name path)) w =
  (w, read_snapshot json_load name path (files w)).
Proof.
  io_bind. rewrite os_path_isfile_run. cbv beta iota. unfold read_snapshot.
  destruct (files w !! path) as [f|] eqn:Hf; [| reflexivity].
  rewrite open_then_parse, Hf. reflexivity.
Qed.

(** The age test on a snapshot that is there. *)
Lemma age_test_run (path : string) (w : World) (f : File) :
  files w !! path = Some f →
  (timestamp_now ≫= λ t_now,
     last_modified_time path ≫= λ t_file,
     mret (1 <? timedelta_days (t_now - t_file))) w =
  (w, inr (1 <? timedelta_days (now w - mtime f))).
Proof.
  intros Hf. io_bind. unfold timestamp_now at 1. cbv beta iota.
  io_bind. rewrite (last_modified_time_run path w f Hf). reflexivity.
Qed.

(** [download_exchange_symbols]: the request is logged and the network
    acts on the files. *)
Lemma download_exchange_symbols_run (name : string)
    (environ : option (gmap string string)) (w : World) :
  download_exchange_symbols data_root network name environ w =
  let path := symbols_path data_root name None w in
  let url := SYMBOLS_URL_format name in
  let folder := join_step (join_step (data_root (os_environ w)) "exchanges")
                  name in
  let out := network (now w) url path (files w) in
  (set_files (fst out) (log_request url (add_dir folder w)), snd out).
Proof.
  unfold download_exchange_symbols.
  io_bind. rewrite get_exchange_symbols_filename_run. cbv beta iota zeta.
  io_bind. unfold urlretrieve. cbn [files now log_request add_dir].
  fold (symbols_path data_root name None w).
  destruct (network _ _ _ _) as [fs [e|[]]]; reflexivity.
Qed.

(** [get_exchange_symbols], run in full. *)
Lemma get_exchange_symbols_run (name : string)
    (environ : option (gmap string string)) (w : World) :
  get_exchange_symbols data_root network json_load name environ w =
  let path := symbols_path data_root name None w in
  let url := SYMBOLS_URL_format name in
  let folder := join_step (join_step (data_root (os_environ w)) "exchanges")
                  name in
  if refresh_due path w then
    let out := network (now w) url path (files w) in
    let w' := set_files (fst out)
                (log_request url (add_dir folder (add_dir folder w))) in
    match snd out with
    | inl e => (w', inl e)
    | inr _ => (w', read_snapshot json_load name path (fst out))
    end
  else (add_dir folder w, read_snapshot json_load name path (files w)).
Proof.
  unfold get_exchange_symbols.
  io_bind. rewrite get_exchange_symbols_filename_run. cbv beta iota zeta.
  set (path := symbols_path data_root name None w).
  set (folder := join_step (join_step (data_root (environ_in_force None w))
                              "exchanges") name).
  change (environ_in_force None w) with (os_environ w) in folder.
  io_bind. rewrite os_path_isfile_run, files_add_dir. cbv beta iota.
  unfold refresh_due.
  destruct (files w !! path) as [f|] eqn:Hf; cbv beta iota delta [negb].
  - io_bind. rewrite (age_test_run path (add_dir folder w) f Hf).
    cbv beta iota. rewrite now_add_dir.
    destruct (1 <? timedelta_days (now w - mtime f)).
    + io_bind. rewrite download_exchange_symbols_run. cbv zeta.
      fold path. change (os_environ (add_dir folder w)) with (os_environ w).
      fold folder. rewrite now_add_dir, files_add_dir.
      destruct (network _ _ _ _) as [fs [e|[]]]; cbn [fst snd]; [reflexivity |].
      rewrite read_after_refresh. reflexivity.
    + io_bind. rewrite IO_ret_eq. cbv beta iota.
      rewrite read_after_refresh, files_add_dir. reflexivity.
  - io_bind. rewrite IO_ret_eq. cbv beta iota.
    io_bind. rewrite download_exchange_symbols_run. cbv zeta.
    fold path. change (os_environ (add_dir folder w)) with (os_environ w).
    fold folder. rewrite now_add_dir, files_add_dir.
    destruct (network _ _ _ _) as [fs [e|[]]]; cbn [fst snd]; [reflexivity |].
    rewrite read_after_refresh. reflexivity.
Qed.

(** A failed fetch is not caught: whatever the network raises comes out of
    [get_exchange_symbols], snapshot or no snapshot. *)
Lemma get_exchange_symbols_fetch_raises (name : string)
    (environ : option (gmap string string)) (w : World)
    (fs : gmap string File) (e : exn) :
  let path := symbols_path data_root name None w in
  refresh_due path w = true →
  network (now w) (SYMBOLS_URL_format name) path (files w) = (fs, inl e) →
  snd (get_exchange_symbols data_root network json_load name environ w) = inl e.
Proof.
  intros path Hdue Hnet. rewrite get_exchange_symbols_run. cbv zeta.
  fold path. rewrite Hdue, Hnet. reflexivity.
Qed.

(** More than one whole day: two days or more. *)
Lemma days_exceed_one (d : Z) : (1 <? timedelta_days d) = true ↔ 2 * day_ns <= d.
Proof.
  unfold timedelta_days. rewrite Z.ltb_lt.
  assert (0 < day_ns) by reflexivity. split; intros Hd.
  - destruct (Z.le_gt_cases (2 * day_ns) d) as [|Hlt]; [assumption |].
    assert (d / day_ns < 2) by (apply Z.div_lt_upper_bound; lia). lia.
  - assert (2 <= d / day_ns) by (apply Z.div_le_lower_bound; lia). lia.
Qed.

Lemma refresh_due_iff (path : string) (w : World) :
  refresh_due path w = true ↔
  files w !! path = None ∨
  ∃ f, files w !! path = Some f ∧ 2 * day_ns <= now w - mtime f.
Proof.
  unfold refresh_due. destruct (files w !! path) as [f|].
  - rewrite days_exceed_one. split.
    + intros Hd. right. exists f. split; [reflexivity | exact Hd].
    + intros [Hn | [f' [[= <-] Hd]]]; [discriminate | exact Hd].
  - split; [intros _; left; reflexivity | reflexivity].
Qed.

(** C3 (amended): [get_exchange_symbols] requests the symbols of the
    exchange from the remote exactly when the snapshot file is missing or
    the whole days of its age exceed 1, that is when it is at least two
    days old.  When no request is made, and when the request completes
    without raising, the snapshot then on disk is parsed and returned, and
    without a snapshot on disk the symbols-not-found error is raised with
    the exchange name and the path of the file. *)
Theorem get_exchange_symbols_refresh_then_read (name : string)
    (environ : option (gmap string string)) (w : World) :
  let path := symbols_path data_root name None w in
  let url := SYMBOLS_URL_format name in
  let out := get_exchange_symbols data_root network json_load name environ w in
  requests (fst out) = requests w ++ (if refresh_due path w then [url] else []) ∧
  (refresh_due path w = true ↔
   files w !! path = None ∨
   ∃ f, files w !! path = Some f ∧ 2 * day_ns <= now w - mtime f) ∧
  (refresh_due path w = false →
   snd out = read_snapshot json_load name path (files w)) ∧
  (refresh_due path w = true →
   ∀ fs, network (now w) url path (files w) = (fs, inr tt) →
         snd out = read_snapshot json_load name path fs).
Proof.
  intros path url out. subst out. rewrite get_exchange_symbols_run. cbv zeta.
  fold path url. split; [| split; [apply refresh_due_iff | split]].
  - destruct (refresh_due path w).
    + destruct (snd (network (now w) url path (files w))); reflexivity.
    + cbn. rewrite app_nil_r. reflexivity.
  - intros ->. reflexivity.
  - intros -> fs ->. reflexivity.
Qed.

(** ** The algorithm store *)

Lemma get_algo_folder_run (a : string)
    (environ : option (gmap string string)) (w : World) :
  get_algo_folder data_root (Some a) environ w =
  let folder := join_step (join_step (data_root (environ_in_force environ w))
                             "live_algos") a in
  (add_dir folder w, inr folder).
Proof. reflexivity. Qed.

(** Without a name the folder cannot be built: the join raises before any
    directory is made. *)
Lemma get_algo_folder_null (environ : option (gmap string string)) (w : World) :
  get_algo_folder data_root None environ w =
  (w, inl (TypeError "expected str, bytes or os.PathLike object, not NoneType")).
Proof. reflexivity. Qed.

Lemma with_rel_path_run (folder : string) (rel_path : option string) (w : World) :
  with_rel_path folder rel_path w =
  (w, inr (match rel_path with Some r => join_step folder r | None => folder end)).
Proof. destruct rel_path; reflexivity. Qed.

(** The file behind a named algorithm, then the test for it. *)
Lemma algo_file_run {A : Type} (a key ext : string)
    (environ : option (gmap string string)) (rel_path : option string)
    (k : string → bool → IO A) (w : World) :
  (get_algo_folder data_root (Some a) environ ≫= λ folder,
     with_rel_path folder rel_path ≫= λ folder,
     lift (os_path_join folder [Some (key +:+ ext)]) ≫= λ filename,
     os_path_isfile filename ≫= λ present, k filename present) w =
  let folder := join_step (join_step (data_root (environ_in_force environ w))
                             "live_algos") a in
  let path := algo_file_path data_root a key ext environ rel_path w in
  k path (match files w !! path with Some _ => true | None => false end)
    (add_dir folder w).
Proof.
  io_bind. rewrite get_algo_folder_run. cbv beta iota zeta.
  io_bind. rewrite with_rel_path_run. cbv beta iota.
  io_bind. cbv [lift os_path_join join_from]. cbv beta iota.
  io_bind. rewrite os_path_isfile_run, files_add_dir. reflexivity.
Qed.

(** [get_algo_object] on a named algorithm always returns: the unpickled
    object, or [None] when there is no file, when it cannot be opened and
    when unpickling raises. *)
Lemma get_algo_object_run (a key : string)
    (environ : option (gmap string string)) (rel_path : option string)
    (w : World) :
  snd (get_algo_object data_root pickle_load (Some a) key environ rel_path w) =
  inr (match files w !! algo_file_path data_root a key ".p" environ rel_path w with
       | Some f =>
           if readable f then
             match pickle_load (content f) with
             | inr obj => Some obj
             | inl _ => None
             end
           else None
       | None => None
       end).
Proof.
  unfold get_algo_object. cbv beta iota. rewrite algo_file_run. cbv zeta.
  set (path := algo_file_path data_root a key ".p" environ rel_path w).
  destruct (files w !! path) as [f|] eqn:Hf; [| reflexivity].
  unfold try_except. io_bind. unfold open_read. rewrite files_add_dir, Hf.
  destruct (readable f); [| reflexivity]. cbv beta iota.
  io_bind. unfold lift. destruct (pickle_load (content f)); reflexivity.
Qed.

(** [get_algo_df] on a named algorithm: the parsed table; the empty table
    when there is no file and when opening or reading raises [IOError];
    any other error of the read as it is. *)
Lemma get_algo_df_run (a key : string)
    (environ : option (gmap string string)) (rel_path : option string)
    (w : World) :
  snd (get_algo_df data_root read_csv (Some a) key environ rel_path w) =
  match files w !! algo_file_path data_root a key ".csv" environ rel_path w with
  | Some f =>
      if readable f then
        match read_csv (content f) with
        | inr df => inr df
        | inl e => if is_IOError e then inr empty_frame else inl e
        end
      else inr empty_frame
  | None => inr empty_frame
  end.
Proof.
  unfold get_algo_df. rewrite algo_file_run. cbv zeta.
  set (path := algo_file_path data_root a key ".csv" environ rel_path w).
  destruct (files w !! path) as [f|] eqn:Hf; [| reflexivity].
  unfold try_except. rewrite open_then_parse, files_add_dir, Hf.
  destruct (readable f); [| reflexivity].
  destruct (read_csv (content f)) as [e|df]; [| reflexivity].
  destruct (is_IOError e); reflexivity.
Qed.

(** C9 (amended): for every named algorithm, key and optional relative
    path, [get_algo_object] never raises: it returns the unpickled object,
    and [None] when the file is absent, when it cannot be opened and when
    unpickling raises any exception.  [get_algo_df] returns the parsed
    table, and the empty table when the file is missing and when opening
    or reading it raises [IOError]; an error of the read that is not an
    [IOError] is raised to the caller. *)
Theorem algo_reads_degrade (a key : string)
    (environ : option (gmap string string)) (rel_path : option string)
    (w : World) :
  snd (get_algo_object data_root pickle_load (Some a) key environ rel_path w) =
  inr (match files w !! algo_file_path data_root a key ".p" environ rel_path w with
       | Some f =>
           if readable f then
             match pickle_load (content f) with
             | inr obj => Some obj
             | inl _ => None
             end
           else None
       | None => None
       end) ∧
  snd (get_algo_df data_root read_csv (Some a) key environ rel_path w) =
  match files w !! algo_file_path data_root a key ".csv" environ rel_path w with
  | Some f =>
      if readable f then
        match read_csv (content f) with
        | inr df => inr df
        | inl e => if is_IOError e then inr empty_frame else inl e
        end
      else inr empty_frame
  | None => inr empty_frame
  end.
Proof. split; [apply get_algo_object_run | apply get_algo_df_run]. Qed.

(** C10: the guard on a null algorithm name is in [get_algo_object] only.
    There a null name returns [None] and leaves the world as it was;
    [get_algo_df] has no such guard, goes on to build the folder from the
    null name and fails there, with the error of the path join, instead of
    returning an empty table. *)
Theorem null_algo_name_guard (key : string)
    (environ : option (gmap string string)) (rel_path : option string)
    (w : World) :
  get_algo_object data_root pickle_load None key environ rel_path w =
  (w, inr None) ∧
  get_algo_df data_root read_csv None key environ rel_path w =
  (w, inl (TypeError "expected str, bytes or os.PathLike object, not NoneType")).
Proof. split; reflexivity. Qed.

End StoreFacts.

(** ** The symbol cache and the store on concrete worlds *)

(** C1: a snapshot three days old and a remote that cannot be reached.
    The snapshot is on disk and a refresh is due; the fetch raises, and
    [get_exchange_symbols] raises that error instead of returning the
    snapshot, which is still on disk afterwards. *)
Theorem stale_snapshot_unreachable_remote :
  let w := world_with_snapshot (3 * day_ns) in
  let path := symbols_path home_data_root "bitfinex" None w in
  let out :=
    get_exchange_symbols home_data_root (urllib_network offline) text_json
      "bitfinex" None w in
  files w !! path = Some (mkFile "{}" 0 true) ∧
  refresh_due path w = true ∧
  snd (urllib_network offline (now w) (SYMBOLS_URL_format "bitfinex") path
         (files w)) = inl (URLError "Name or service not known") ∧
  snd out = inl (URLError "Name or service not known") ∧
  snd out ≠ text_json "{}" ∧
  files (fst out) !! path = Some (mkFile "{}" 0 true).
Proof.
  cbv zeta. repeat split; try (vm_compute; reflexivity).
  vm_compute. discriminate.
Qed.

(** C3, as first stated, fails on a snapshot one day and a half old: its
    age exceeds one day, yet no request is made and the snapshot on disk is
    what comes back. *)
Lemma snapshot_of_36_hours_not_refreshed :
  let w := world_with_snapshot (36 * 60 * minute_ns) in
  let out :=
    get_exchange_symbols home_data_root (urllib_network online) text_json
      "bitfinex" None w in
  (∃ f, files w !! bitfinex_symbols = Some f ∧ day_ns < now w - mtime f) ∧
  requests w = [] ∧
  requests (fst out) = [] ∧
  snd out = inr "{}"%string.
Proof.
  cbv zeta. split; [| repeat split; vm_compute; reflexivity].
  exists (mkFile "{}" 0 true). split; vm_compute; reflexivity.
Qed.

(** The amended C3 at work: a snapshot one day old is read without a
    request, and a missing snapshot is fetched from a remote that answers
    and then read. *)
Lemma get_exchange_symbols_refresh_then_read_witness :
  (refresh_due bitfinex_symbols (world_with_snapshot day_ns) = false ∧
   snd (get_exchange_symbols home_data_root (urllib_network online) text_json
          "bitfinex" None (world_with_snapshot day_ns)) =
   read_snapshot text_json "bitfinex" bitfinex_symbols
     (files (world_with_snapshot day_ns))) ∧
  (refresh_due "/home/user/.catalyst/data/exchanges/kraken/symbols.json"
     (world_with_snapshot day_ns) = true ∧
   snd (get_exchange_symbols home_data_root (urllib_network online) text_json
          "kraken" None (world_with_snapshot day_ns)) =
   read_snapshot text_json "kraken"
     "/home/user/.catalyst/data/exchanges/kraken/symbols.json"
     (<["/home/user/.catalyst/data/exchanges/kraken/symbols.json" :=
          mkFile "[]" day_ns true]> (files (world_with_snapshot day_ns)))).
Proof.
  split; (split; [reflexivity |]).
  - apply (proj1 (proj2 (proj2
      (get_exchange_symbols_refresh_then_read home_data_root
         (urllib_network online) text_json "bitfinex" None
         (world_with_snapshot day_ns))))).
    reflexivity.
  - apply (proj2 (proj2 (proj2
      (get_exchange_symbols_refresh_then_read home_data_root
         (urllib_network online) text_json "kraken" None
         (world_with_snapshot day_ns))))); reflexivity.
Defined.

(** C9, as first stated, fails on a table file that is there and empty:
    the reader raises an error that is not an [IOError], and [get_algo_df]
    raises it instead of returning an empty table. *)
Lemma get_algo_df_empty_file_raises :
  let path := algo_file_path home_data_root "algo" "orders" ".csv" None None
                world_with_empty_csv in
  files world_with_empty_csv !! path = Some (mkFile "" 0 true) ∧
  snd (get_algo_df home_data_root csv_rejects_empty (Some "algo") "orders"
         None None world_with_empty_csv) = inl (LibraryError "EmptyDataError").
Proof. split; vm_compute; reflexivity. Qed.

(** ** [get_frequency]: the claims *)

(** C2: two expressions outside the shape of the specification.  On the
    first, with text after the unit letter, [get_frequency] returns a
    result; on the second, with a letter among the digits, it raises the
    [ValueError] of [int], not the invalid-frequency error. *)
Theorem get_frequency_outside_shape :
  spec_frequency_shape "5mx" = false ∧
  get_frequency "5mx" "minute" = inr (5, "m", "minute")%string ∧
  spec_frequency_shape "1xd" = false ∧
  get_frequency "1xd" "minute" =
  inl (ValueError "invalid literal for int() with base 10: 1x").
Proof. repeat split; reflexivity. Qed.

(** C4: the aliases "daily" and "minute" are read as "1d" and "1m"; in
    every result the unit is a day or a minute letter, a day unit turns a
    requested frequency "minute" into "daily" and a minute unit turns
    "daily" into "minute", any other requested frequency being kept; and
    the two examples of the specification come out as it says. *)
Theorem get_frequency_aliases_and_cross_correction :
  (∀ data_frequency,
     get_frequency "daily" data_frequency = get_frequency "1d" data_frequency) ∧
  (∀ data_frequency,
     get_frequency "minute" data_frequency = get_frequency "1m" data_frequency) ∧
  (∀ freq data_frequency,
     match get_frequency freq data_frequency with
     | inr (candle_size, unit, resolved) =>
         (Str.lower unit = "d"%string ∧
          resolved = if String.eqb data_frequency "minute" then "daily"%string
                     else data_frequency) ∨
         (Str.lower unit = "m"%string ∧
          resolved = if String.eqb data_frequency "daily" then "minute"%string
                     else data_frequency)
     | inl _ => True
     end) ∧
  get_frequency "5m" "daily" = inr (5, "m", "minute")%string ∧
  get_frequency "1d" "minute" = inr (1, "d", "daily")%string.
Proof.
  split; [reflexivity |]. split; [reflexivity |].
  split; [| split; reflexivity].
  intros freq data_frequency.
  destruct (get_frequency freq data_frequency) as [e|[[n u] d]] eqn:H; [exact I |].
  apply get_frequency_inr in H. destruct H as [g1 [_ [_ H]]]. exact H.
Qed.

(** C8, as first stated, fails on "0m": the magnitude returned is zero. *)
Lemma get_frequency_zero_magnitude :
  get_frequency "0m" "minute" = inr (0, "m", "minute")%string ∧ ¬ (0 >= 1).
Proof. split; [reflexivity | lia]. Qed.

(** C8 (amended): every result of [get_frequency] has a magnitude that is
    an integer not below zero. *)
Theorem get_frequency_magnitude_nonneg (freq data_frequency : string)
    (candle_size : Z) (unit resolved : string) :
  get_frequency freq data_frequency = inr (candle_size, unit, resolved) →
  0 <= candle_size.
Proof.
  intros H. apply get_frequency_inr in H. destruct H as [g1 [Hm [Hint _]]].
  destruct (re_match_frequency_head _ _ _ Hm) as [c [g [-> Hd]]].
  exact (py_int_digit_head_nonneg c g candle_size Hd Hint).
Qed.

Lemma get_frequency_magnitude_nonneg_witness :
  get_frequency "15D" "minute" = inr (15, "D", "daily")%string ∧ 0 <= 15.
Proof.
  split; [reflexivity |].
  apply (get_frequency_magnitude_nonneg "15D" "minute" 15 "D" "daily").
  reflexivity.
Defined.

(** ** Resampling *)

Section ResampleFacts.

Context {num : Type}.
Variable add : num → num → num.
Variable zero : num.
Variable ltb : num → num → bool.
Variable sum_of_nothing : option num.

(** The order of the numbers is a strict order. *)
Hypothesis ltb_irrefl : ∀ x, ltb x x = false.
Hypothesis ltb_trans :
  ∀ x y z, ltb x y = true → ltb y z = true → ltb x z = true.

(** The running maximum dominates what it has seen. *)
Lemma running_max_seen (vs : list num) : ∀ (seen : list num) (m : num),
  m ∈ seen → (∀ x, x ∈ seen → ltb m x = false) →
  let m' := fold_left (fun m x => if ltb m x then x else m) vs m in
  m' ∈ seen ++ vs ∧ ∀ x, x ∈ seen ++ vs → ltb m' x = false.
Proof.
  induction vs as [|y vs IH]; intros seen m Hin Hmax; cbn.
  - rewrite app_nil_r. split; assumption.
  - rewrite (cons_middle y seen vs), app_assoc. apply IH.
    + apply elem_of_app.
      destruct (ltb m y); [right; left | left; exact Hin].
    + intros x Hx. apply elem_of_app in Hx as [Hx | Hx].
      * destruct (ltb m y) eqn:Hmy; [| apply Hmax, Hx].
        destruct (ltb y x) eqn:Hyx; [| reflexivity].
        pose proof (ltb_trans _ _ _ Hmy Hyx) as Ht.
        rewrite (Hmax x Hx) in Ht. discriminate.
      * apply list_elem_of_singleton in Hx as ->.
        destruct (ltb m y) eqn:Hmy; [apply ltb_irrefl | exact Hmy].
Qed.

Lemma running_min_seen (vs : list num) : ∀ (seen : list num) (m : num),
  m ∈ seen → (∀ x, x ∈ seen → ltb x m = false) →
  let m' := fold_left (fun m x => if ltb x m then x else m) vs m in
  m' ∈ seen ++ vs ∧ ∀ x, x ∈ seen ++ vs → ltb x m' = false.
Proof.
  induction vs as [|y vs IH]; intros seen m Hin Hmin; cbn.
  - rewrite app_nil_r. split; assumption.
  - rewrite (cons_middle y seen vs), app_assoc. apply IH.
    + apply elem_of_app.
      destruct (ltb y m); [right; left | left; exact Hin].
    + intros x Hx. apply elem_of_app in Hx as [Hx | Hx].
      * destruct (ltb y m) eqn:Hym; [| apply Hmin, Hx].
        destruct (ltb x y) eqn:Hxy; [| reflexivity].
        pose proof (ltb_trans _ _ _ Hxy Hym) as Ht.
        rewrite (Hmin x Hx) in Ht. discriminate.
      * apply list_elem_of_singleton in Hx as ->.
        destruct (ltb y m) eqn:Hym; [apply ltb_irrefl | exact Hym].
Qed.

Lemma list_last_cons (vs : list num) :
  ∀ y v, List.last (y :: vs) v = List.last vs y.
Proof.
  induction vs as [|a vs IH]; intros y v; [reflexivity |].
  change (List.last (y :: a :: vs) v) with (List.last (a :: vs) v).
  rewrite !IH. reflexivity.
Qed.

Lemma last_default (vs : list num) (v : num) :
  last (v :: vs) = Some (List.last vs v).
Proof.
  revert v. induction vs as [|y vs IH]; intros v; [reflexivity |].
  rewrite last_cons, IH, list_last_cons. reflexivity.
Qed.

(** Each reduction of pandas is the one the specification words, on the
    numbers of a group that has some. *)
Lemma aggregate_reduces (h : how) (cells : list (option num)) :
  values cells ≠ [] →
  ∃ v, aggregate add zero ltb sum_of_nothing h cells = Some v ∧
       reduces add zero ltb h (values cells) v.
Proof.
  unfold aggregate. destruct (values cells) as [|v vs]; [congruence |].
  intros _. destruct h; eexists; (split; [reflexivity |]); cbn.
  - reflexivity.
  - apply (running_max_seen vs [v] v); [left |].
    intros x Hx. apply list_elem_of_singleton in Hx as ->. apply ltb_irrefl.
  - apply (running_min_seen vs [v] v); [left |].
    intros x Hx. apply list_elem_of_singleton in Hx as ->. apply ltb_irrefl.
  - apply last_default.
  - reflexivity.
Qed.

(** *** Sorting the index *)

Lemma insert_row_perm (r : Z * list (option num))
    (l : list (Z * list (option num))) :
  insert_row r l ≡ₚ r :: l.
Proof.
  induction l as [|r' l IH]; cbn; [reflexivity |].
  destruct (fst r <=? fst r'); [reflexivity |].
  rewrite IH. apply Permutation_swap.
Qed.

Lemma sort_index_perm (l : list (Z * list (option num))) :
  sort_index l ≡ₚ l.
Proof.
  induction l as [|r l IH]; cbn; [reflexivity |].
  fold (sort_index l). rewrite insert_row_perm, IH. reflexivity.
Qed.

Lemma insert_row_sorted (r : Z * list (option num))
    (l : list (Z * list (option num))) :
  StronglySorted (fun a b => fst a <= fst b) l →
  StronglySorted (fun a b => fst a <= fst b) (insert_row r l).
Proof.
  induction 1 as [|r' l Hl IH Hall]; cbn.
  - constructor; constructor.
  - destruct (Z.leb_spec (fst r) (fst r')) as [Hle | Hgt].
    + constructor; [constructor; assumption |].
      constructor; [exact Hle |].
      eapply Forall_impl; [exact Hall |]. cbn. intros x Hx. lia.
    + constructor; [exact IH |].
      rewrite insert_row_perm. constructor; [lia | exact Hall].
Qed.

(** The rows come out in time order. *)
Lemma sort_index_sorted (l : list (Z * list (option num))) :
  StronglySorted (fun a b => fst a <= fst b) (sort_index l).
Proof.
  induction l as [|r l IH]; cbn; [constructor |].
  apply insert_row_sorted, IH.
Qed.

(** The sort is stable: rows with one time stamp keep their order. *)
Lemma sort_index_stable (t : Z) (l : list (Z * list (option num))) :
  List.filter (fun r => fst r =? t) (sort_index l) =
  List.filter (fun r => fst r =? t) l.
Proof.
  induction l as [|r l IH]; cbn; [reflexivity |].
  fold (sort_index l). rewrite <- IH. clear IH.
  induction (sort_index l) as [|r' s IHs]; cbn; [reflexivity |].
  destruct (Z.leb_spec (fst r) (fst r')) as [Hle | Hgt]; cbn; [reflexivity |].
  rewrite IHs.
  destruct (Z.eqb_spec (fst r) t) as [Hr | Hr];
    destruct (Z.eqb_spec (fst r') t) as [Hr' | Hr']; try reflexivity; lia.
Qed.

(** *** The span of the index *)

Lemma index_min_spec (l : list (Z * list (option num))) : ∀ t,
  index_min t l <= t ∧ (∀ r, r ∈ l → index_min t l <= fst r) ∧
  (index_min t l = t ∨ ∃ r, r ∈ l ∧ index_min t l = fst r).
Proof.
  unfold index_min. induction l as [|r l IH]; intros t; cbn.
  - split; [lia |]. split; [| left; reflexivity].
    intros r Hr. apply elem_of_nil in Hr as [].
  - destruct (IH (Z.min t (fst r))) as [Hle [Hall Hwit]].
    split; [lia |]. split.
    + intros x Hx. apply elem_of_cons in Hx as [-> | Hx]; [lia | apply Hall, Hx].
    + destruct Hwit as [Heq | [x [Hx Heq]]].
      * destruct (Z.min_spec t (fst r)) as [[_ Hm] | [_ Hm]].
        -- left. rewrite Heq. exact Hm.
        -- right. exists r. split; [left | rewrite Heq; exact Hm].
      * right. exists x. split; [right; exact Hx | exact Heq].
Qed.

Lemma index_max_spec (l : list (Z * list (option num))) : ∀ t,
  t <= index_max t l ∧ ∀ r, r ∈ l → fst r <= index_max t l.
Proof.
  unfold index_max. induction l as [|r l IH]; intros t; cbn.
  - split; [lia |]. intros r Hr. apply elem_of_nil in Hr as [].
  - destruct (IH (Z.max t (fst r))) as [Hle Hall].
    split; [lia |].
    intros x Hx. apply elem_of_cons in Hx as [-> | Hx]; [lia | apply Hall, Hx].
Qed.

(** The span holds every time stamp, and starts at one of them. *)
Lemma time_span_spec (l : list (Z * list (option num))) (first last : Z) :
  time_span l = Some (first, last) →
  (∀ r, r ∈ l → first <= fst r <= last) ∧ ∃ r, r ∈ l ∧ fst r = first.
Proof.
  destruct l as [|[t c] l]; cbn; [discriminate |]. intros [= <- <-].
  destruct (index_min_spec l t) as [Hmin [Hmins Hwit]].
  destruct (index_max_spec l t) as [Hmax Hmaxs]. split.
  - intros r Hr. apply elem_of_cons in Hr as [-> | Hr]; cbn; [lia |].
    split; [apply Hmins, Hr | apply Hmaxs, Hr].
  - destruct Hwit as [Heq | [r [Hr Heq]]].
    + exists (t, c). split; [left | cbn; congruence].
    + exists r. split; [right; exact Hr | congruence].
Qed.

Lemma time_span_None (l : list (Z * list (option num))) :
  time_span l = None → l = [].
Proof. destruct l as [|[t c] l]; [reflexivity | discriminate]. Qed.

(** The first bucket starts at or before the first time stamp, less than
    a bucket before it. *)
Lemma bucket_origin_spec (first width : Z) :
  0 < width →
  bucket_origin first width <= first < bucket_origin first width + width.
Proof.
  intros Hw. unfold bucket_origin.
  pose proof (Z.mod_pos_bound (first mod day_ns) width Hw). lia.
Qed.

(** *** The rows of the result *)

Lemma lookup_map {A B : Type} (f : A → B) (l : list A) (i : nat) :
  map f l !! i = f <$> l !! i.
Proof.
  revert i. induction l as [|x l IH]; intros [|i]; cbn; auto.
Qed.

(** Row [k] of the result is the row of bucket [k], counted from the
    first edge, up to the bucket of the last time stamp. *)
Lemma resample_agg_lookup (df : DataFrame num) (width : Z) (h : how)
    (k : nat) (lo : Z) (cells : list (option num)) :
  rows (resample_agg add zero ltb sum_of_nothing df width h) !! k
  = Some (lo, cells) ↔
  ∃ first last,
    time_span (sort_index (rows df)) = Some (first, last) ∧
    Z.of_nat k <= (last - bucket_origin first width) / width ∧
    lo = bucket_origin first width + Z.of_nat k * width ∧
    cells = map (fun j => aggregate add zero ltb sum_of_nothing h
                            (column_cells j
                               (bucket lo width (sort_index (rows df)))))
              (seq 0 (length (columns df))).
Proof.
  unfold resample_agg. cbv zeta.
  destruct (time_span (sort_index (rows df))) as [[first last]|] eqn:Hspan;
    cbn [rows].
  - rewrite lookup_map. split.
    + intros H. apply fmap_Some in H as [k' [Hk Heq]].
      apply lookup_seq in Hk as [-> Hlt]. unfold bucket_row in Heq.
      injection Heq as -> ->. exists first, last.
      split; [reflexivity |]. split; [lia |]. split; reflexivity.
    + intros (first' & last' & [= <- <-] & Hk & -> & ->).
      apply fmap_Some. exists k. split; [| reflexivity].
      apply lookup_seq. split; [reflexivity | lia].
  - split; [discriminate |]. intros (first & last & [=] & _).
Qed.

Lemma resample_agg_columns (df : DataFrame num) (width : Z) (h : how) :
  columns (resample_agg add zero ltb sum_of_nothing df width h) = columns df.
Proof.
  unfold resample_agg. cbv zeta.
  destruct (time_span (sort_index (rows df))) as [[first last]|]; reflexivity.
Qed.

(** The bucket a time stamp within the span falls in. *)
Lemma bucket_of_stamp (origin width t : Z) :
  0 < width → origin <= t →
  let k := (t - origin) / width in
  0 <= k ∧ origin + k * width <= t < origin + k * width + width ∧
  ∀ k', origin + k' * width <= t < origin + k' * width + width → k' = k.
Proof.
  intros Hw Ht k. subst k.
  pose proof (Z.div_mod (t - origin) width ltac:(lia)) as Hdm.
  pose proof (Z.mod_pos_bound (t - origin) width Hw) as Hmod.
  split; [apply Z.div_pos; lia |]. split; [lia |].
  intros k' Hk'.
  apply (Z.div_unique (t - origin) width k' (t - origin - width * k')); lia.
Qed.

(** *** The ends of the span *)

(** The latest time stamp is the stamp of a row. *)
Lemma index_max_attained (l : list (Z * list (option num))) : ∀ t,
  index_max t l = t ∨ ∃ r, r ∈ l ∧ index_max t l = fst r.
Proof.
  unfold index_max. induction l as [|r l IH]; intros t; cbn; [left; reflexivity |].
  destruct (IH (Z.max t (fst r))) as [Heq | [x [Hx Heq]]].
  - destruct (Z.max_spec t (fst r)) as [[_ Hm] | [_ Hm]].
    + right. exists r. split; [left | rewrite Heq; exact Hm].
    + left. rewrite Heq. exact Hm.
  - right. exists x. split; [right; exact Hx | exact Heq].
Qed.

Lemma time_span_last_attained (l : list (Z * list (option num)))
    (first last : Z) :
  time_span l = Some (first, last) → ∃ r, r ∈ l ∧ fst r = last.
Proof.
  destruct l as [|[t c] l]; cbn; [discriminate |]. intros [= <- <-].
  destruct (index_max_attained l t) as [Heq | [r [Hr Heq]]].
  - exists (t, c). split; [left | cbn; congruence].
  - exists r. split; [right; exact Hr | congruence].
Qed.

(** The span of a table whose earliest and latest time stamps are known. *)
Lemma time_span_of_bounds (l : list (Z * list (option num))) (tmin tmax : Z) :
  (∃ c, (tmin, c) ∈ l) → (∃ c, (tmax, c) ∈ l) →
  (∀ r, r ∈ l → tmin <= fst r <= tmax) →
  time_span (sort_index l) = Some (tmin, tmax).
Proof.
  intros [cmin Hmin] [cmax Hmax] Hall.
  destruct (time_span (sort_index l)) as [[first last]|] eqn:Hspan.
  - destruct (time_span_spec _ _ _ Hspan) as [Hin [rf [Hrf Hfirst]]].
    destruct (time_span_last_attained _ _ _ Hspan) as [rl [Hrl Hlast]].
    rewrite (sort_index_perm l) in Hrf, Hrl.
    pose proof (Hall _ Hrf) as H1. pose proof (Hall _ Hrl) as H2.
    rewrite <- (sort_index_perm l) in Hmin, Hmax.
    pose proof (Hin _ Hmin) as H3. pose proof (Hin _ Hmax) as H4.
    cbn in H3, H4. f_equal. f_equal; lia.
  - apply time_span_None in Hspan.
    rewrite <- (sort_index_perm l), Hspan in Hmin.
    apply elem_of_nil in Hmin as [].
Qed.

(** The first edge lies on the day of the first time stamp, a whole number
    of buckets after its midnight. *)
Lemma bucket_origin_aligned (first width : Z) :
  0 < width →
  (bucket_origin first width mod day_ns) mod width = 0 ∧
  bucket_origin first width / day_ns = first / day_ns.
Proof.
  intros Hw. unfold bucket_origin.
  assert (HD : 0 < day_ns) by reflexivity.
  pose proof (Z.div_mod first day_ns ltac:(lia)) as Hfirst.
  pose proof (Z.mod_pos_bound first day_ns HD) as Hm.
  set (m := first mod day_ns) in *. set (q := first / day_ns) in *.
  pose proof (Z.div_mod m width ltac:(lia)) as Hmw.
  pose proof (Z.mod_pos_bound m width Hw) as Hr.
  set (r := m mod width) in *.
  assert (Hq : 0 <= m / width) by (apply Z.div_pos; lia).
  assert (Hmr : 0 <= m - r < day_ns) by nia.
  assert (Hmod : (first - r) mod day_ns = m - r).
  { symmetry. apply (Z.mod_unique (first - r) day_ns q (m - r)); lia. }
  assert (Hdiv : (first - r) / day_ns = q).
  { symmetry. apply (Z.div_unique (first - r) day_ns q (m - r)); lia. }
  split; [| exact Hdiv].
  rewrite Hmod. replace (m - r) with (m / width * width) by lia.
  apply Z.mod_mul. lia.
Qed.

(** *** The rows of a bucket *)

Lemma filter_bool {A : Type} (f : A → bool) (P : A → Prop)
    `{∀ x, Decision (P x)} (l : list A) :
  (∀ x, f x = true ↔ P x) → List.filter f l = filter P l.
Proof.
  intros Hf. induction l as [|x l IH]; [reflexivity |].
  cbn [List.filter]. rewrite filter_cons, IH.
  destruct (f x) eqn:Hx; destruct (decide (P x)) as [Hp | Hp]; try reflexivity.
  - exfalso. apply Hp, Hf, Hx.
  - apply Hf in Hp. congruence.
Qed.

Lemma filter_none {A : Type} (P : A → Prop) `{∀ x, Decision (P x)} (l : list A) :
  (∀ x, ¬ P x) → filter P l = [].
Proof.
  intros Hnone. induction l as [|x l IH]; [reflexivity |].
  rewrite filter_cons, IH. destruct (decide (P x)) as [Hp | _]; [| reflexivity].
  destruct (Hnone x Hp).
Qed.

Lemma filter_sorted (P : Z * list (option num) → Prop) `{∀ x, Decision (P x)}
    (l : list (Z * list (option num))) :
  StronglySorted (fun a b => fst a <= fst b) l →
  StronglySorted (fun a b => fst a <= fst b) (filter P l).
Proof.
  induction 1 as [|r l Hl IH Hall]; [constructor |].
  rewrite filter_cons. destruct (decide (P r)); [| exact IH].
  constructor; [exact IH |].
  apply Forall_forall. intros x Hx. apply list_elem_of_filter in Hx as [_ Hx].
  rewrite Forall_forall in Hall. apply Hall, Hx.
Qed.

(** A bucket holds the rows with a time stamp from its left edge up to,
    and without, the next edge. *)
Lemma bucket_filter (lo width : Z) (l : list (Z * list (option num))) :
  bucket lo width l = filter (fun r => lo <= fst r < lo + width) l.
Proof.
  apply filter_bool. intros r. unfold in_bucket.
  rewrite andb_true_iff, Z.leb_le, Z.ltb_lt. reflexivity.
Qed.

Lemma bucket_all (lo width : Z) (l : list (Z * list (option num))) :
  (∀ r, r ∈ l → lo <= fst r < lo + width) → bucket lo width l = l.
Proof.
  intros Hall. unfold bucket, in_bucket.
  induction l as [|r l IH]; cbn; [reflexivity |].
  pose proof (Hall r ltac:(left)) as Hr.
  destruct (Z.leb_spec lo (fst r)); [| lia].
  destruct (Z.ltb_spec (fst r) (lo + width)); [| lia].
  cbn. rewrite IH; [reflexivity |]. intros r' Hr'. apply Hall. right. exact Hr'.
Qed.

Lemma sort_index_stable_filter (t : Z) (l : list (Z * list (option num))) :
  filter (fun r => fst r = t) (sort_index l) = filter (fun r => fst r = t) l.
Proof.
  rewrite <- !(filter_bool (fun r => fst r =? t))
    by (intros r; apply Z.eqb_eq).
  apply sort_index_stable.
Qed.

(** The rows the model reduces for the bucket at [lo] are the rows of the
    table with a time stamp in the bucket, each as often as the table has
    it, in time order, rows with one time stamp in the order of the table. *)
Lemma bucket_group (lo width : Z) (l : list (Z * list (option num))) :
  let inside := filter (fun r => lo <= fst r < lo + width) l in
  bucket lo width (sort_index l) ≡ₚ inside ∧
  StronglySorted (fun a b => fst a <= fst b) (bucket lo width (sort_index l)) ∧
  ∀ t, filter (fun r => fst r = t) (bucket lo width (sort_index l))
       = filter (fun r => fst r = t) inside.
Proof.
  intros inside. subst inside. rewrite bucket_filter. split; [| split].
  - rewrite (sort_index_perm l). reflexivity.
  - apply filter_sorted, sort_index_sorted.
  - intros t. rewrite !list_filter_filter.
    destruct (decide (lo <= t < lo + width)) as [Hin | Hout].
    + rewrite !(list_filter_iff
                  (fun r => fst r = t ∧ lo <= fst r < lo + width)
                  (fun r => fst r = t))
        by (intros r; split; [tauto | intros <-; tauto]).
      apply sort_index_stable_filter.
    + rewrite !(filter_none (fun r => fst r = t ∧ lo <= fst r < lo + width))
        by (intros r [<- Hr]; exact (Hout Hr)).
      reflexivity.
Qed.

(** The numbers of a column, read with list lookups. *)
Lemma values_column_cells (j : nat) (l : list (Z * list (option num))) :
  values (column_cells j l) = omap (fun r => mjoin (snd r !! j)) l.
Proof.
  unfold values, column_cells. induction l as [|r l IH]; cbn; [reflexivity |].
  rewrite nth_lookup, IH. destruct (snd r !! j) as [[v|]|]; reflexivity.
Qed.

(** Without a number in the group there is nothing to reduce: the cell is
    NaN, or what [sum] gives for an empty group. *)
Lemma aggregate_nothing (h : how) (cells : list (option num)) :
  values cells = [] →
  aggregate add zero ltb sum_of_nothing h cells
  = match h with Sum => sum_of_nothing | _ => None end.
Proof. unfold aggregate. intros ->. destruct h; reflexivity. Qed.

(** What [resample_history_df] does for a candle size above 1 and a
    known field. *)
Lemma resample_history_df_buckets (df : DataFrame num) (candle_size : Z)
    (field : string) (h : how) :
  1 < candle_size → field_how field = Some h →
  let width := candle_size * minute_ns in
  ∃ out,
    resample_history_df add zero ltb sum_of_nothing df candle_size field
    = inr out ∧
    columns out = columns df ∧
    (∀ k lo cells,
       rows out !! k = Some (lo, cells) →
       ∃ rmin rmax m,
         rmin ∈ rows df ∧ rmax ∈ rows df ∧
         (∀ r, r ∈ rows df → fst rmin <= fst r <= fst rmax) ∧
         0 <= m ∧ lo = fst rmin - fst rmin mod day_ns + m * width ∧
         fst rmin < lo + width ∧ lo <= fst rmax) ∧
    (∀ k lo cells lo' cells',
       rows out !! k = Some (lo, cells) →
       rows out !! S k = Some (lo', cells') → lo' = lo + width) ∧
    (∀ t c, (t, c) ∈ rows df →
       ∃ k lo cells,
         rows out !! k = Some (lo, cells) ∧ lo <= t < lo + width ∧
         ∀ k' lo' cells',
           rows out !! k' = Some (lo', cells') →
           lo' <= t < lo' + width → k' = k) ∧
    (∀ k lo cells,
       rows out !! k = Some (lo, cells) →
       length cells = length (columns df) ∧
       ∃ group,
         let inside := filter (fun r => lo <= fst r < lo + width) (rows df) in
         group ≡ₚ inside ∧
         StronglySorted (fun a b => fst a <= fst b) group ∧
         (∀ t, filter (fun r => fst r = t) group
               = filter (fun r => fst r = t) inside) ∧
         ∀ j, (j < length (columns df))%nat →
              let vs := omap (fun r => mjoin (snd r !! j)) group in
              (vs = [] →
               cells !! j
               = Some (match h with Sum => sum_of_nothing | _ => None end)) ∧
              (vs ≠ [] →
               ∃ v, cells !! j = Some (Some v) ∧
                    reduces add zero ltb h vs v)).
Proof.
  intros Hcs Hh width.
  assert (Hw : 0 < width) by (unfold width, minute_ns; lia).
  exists (resample_agg add zero ltb sum_of_nothing df width h).
  split; [| split; [apply resample_agg_columns | split; [| split; [| split]]]].
  - unfold resample_history_df.
    destruct (Z.ltb_spec 1 candle_size); [| lia]. rewrite Hh. reflexivity.
  - intros k lo cells Hk.
    apply resample_agg_lookup in Hk as (first & last & Hspan & Hk & -> & _).
    destruct (time_span_spec _ _ _ Hspan) as [Hall [rmin [Hrmin Hfirst]]].
    destruct (time_span_last_attained _ _ _ Hspan) as [rmax [Hrmax Hlast]].
    pose proof (bucket_origin_spec first width Hw) as Horigin.
    assert (Hle : first <= last).
    { specialize (Hall _ Hrmin). lia. }
    unfold bucket_origin in *.
    pose proof (Z.mod_pos_bound first day_ns ltac:(reflexivity)) as Hday.
    set (fmd := first mod day_ns) in *.
    pose proof (Z.div_mod fmd width ltac:(lia)) as Hdm.
    pose proof (Z.mod_pos_bound fmd width Hw) as Hmod.
    assert (Hq : 0 <= fmd / width) by (apply Z.div_pos; lia).
    set (origin := first - fmd mod width) in *.
    pose proof (Z.div_mod (last - origin) width ltac:(lia)) as Hdl.
    pose proof (Z.mod_pos_bound (last - origin) width Hw) as Hml.
    exists rmin, rmax, (fmd / width + Z.of_nat k).
    rewrite (sort_index_perm (rows df)) in Hrmin, Hrmax.
    split; [exact Hrmin |]. split; [exact Hrmax |]. rewrite Hfirst, Hlast.
    split.
    { intros r Hr. apply Hall. rewrite (sort_index_perm (rows df)). exact Hr. }
    fold fmd. split; [lia |]. split; [subst origin; nia |].
    split; [nia | nia].
  - intros k lo cells lo' cells' Hk HSk.
    apply resample_agg_lookup in Hk as (first & last & Hspan & _ & -> & _).
    apply resample_agg_lookup in HSk as (first' & last' & Hspan' & _ & -> & _).
    rewrite Hspan in Hspan'. injection Hspan' as <- <-. lia.
  - intros t c Hin.
    rewrite <- (sort_index_perm (rows df)) in Hin.
    destruct (time_span (sort_index (rows df))) as [[first last]|] eqn:Hspan.
    2:{ apply time_span_None in Hspan. rewrite Hspan in Hin.
        apply elem_of_nil in Hin as []. }
    destruct (time_span_spec _ _ _ Hspan) as [Hall _].
    specialize (Hall _ Hin). cbn in Hall.
    pose proof (bucket_origin_spec first width Hw) as Horigin.
    set (origin := bucket_origin first width) in *.
    destruct (bucket_of_stamp origin width t Hw ltac:(lia)) as [Hk0 [Hin_k Huniq]].
    set (q := (t - origin) / width) in *.
    exists (Z.to_nat q), (origin + q * width).
    eexists. split; [| split; [lia |]].
    + apply resample_agg_lookup. exists first, last.
      split; [exact Hspan |]. fold origin. rewrite Z2Nat.id by exact Hk0.
      split; [apply Z.div_le_mono; lia |]. split; reflexivity.
    + intros k' lo' cells' Hk' Hin'.
      apply resample_agg_lookup in Hk' as (first' & last' & Hspan' & _ & -> & _).
      rewrite Hspan in Hspan'. injection Hspan' as <- <-. fold origin in Hin'.
      rewrite <- (Huniq (Z.of_nat k')) by lia. rewrite Nat2Z.id. reflexivity.
  - intros k lo cells Hk.
    apply resample_agg_lookup in Hk as (first & last & Hspan & _ & Hlo & ->).
    split; [rewrite length_map, length_seq; reflexivity |].
    exists (bucket lo width (sort_index (rows df))).
    destruct (bucket_group lo width (rows df)) as [Hperm [Hsorted Hstable]].
    split; [exact Hperm |]. split; [exact Hsorted |]. split; [exact Hstable |].
    intros j Hj. cbv zeta. rewrite <- values_column_cells.
    rewrite lookup_map, lookup_seq_lt by exact Hj.
    cbn [fmap option_fmap option_map Nat.add].
    split.
    + intros Hvs. rewrite (aggregate_nothing h _ Hvs). reflexivity.
    + intros Hvs. destruct (aggregate_reduces h _ Hvs) as [v [Hagg Hred]].
      exists v. rewrite Hagg. split; [reflexivity | exact Hred].
Qed.

(** *** The guard on the candle size *)

Lemma resample_history_df_one (df : DataFrame num) (field : string) :
  resample_history_df add zero ltb sum_of_nothing df 1 field = inr df.
Proof. reflexivity. Qed.

Lemma field_how_None (field : string) :
  field ∉ ["open"; "high"; "low"; "close"; "volume"]%string →
  field_how field = None.
Proof.
  intros Hnot. unfold field_how.
  repeat match goal with
         | |- context [String.eqb field ?s] =>
             destruct (String.eqb_spec field s) as [-> | _];
             [exfalso; apply Hnot; repeat constructor |]
         end.
  reflexivity.
Qed.

End ResampleFacts.

(** ** Resampling: the claims *)

(** Five one-minute rows that start on a five-minute boundary, counted
    from midnight, share one bucket. *)
Lemma five_closes_on_boundary (start : Z) :
  (start mod day_ns) mod (5 * minute_ns) = 0 →
  resample_history_df Z.add 0 Z.ltb None (five_closes start) 5 "close"
  = inr (mkDataFrame ["close"] [(start, [Some 5])]).
Proof.
  intros Haligned.
  change (resample_history_df Z.add 0 Z.ltb None (five_closes start) 5 "close")
    with (inr (resample_agg Z.add 0 Z.ltb None (five_closes start)
                 (5 * minute_ns) Last) : result (DataFrame Z)).
  f_equal. unfold resample_agg. cbv zeta.
  set (l := rows (five_closes start)).
  assert (Hl : ∀ r, r ∈ l → start <= fst r < start + 5 * minute_ns).
  { intros r Hr. subst l. cbn in Hr.
    repeat (apply elem_of_cons in Hr as [-> | Hr];
            [cbn [fst]; unfold minute_ns; lia |]).
    apply elem_of_nil in Hr as []. }
  assert (Hsort : sort_index l = l).
  { subst l. unfold five_closes, sort_index, minute_ns.
    cbn [rows map fold_right insert_row fst].
    repeat (match goal with
            | |- context [?a <=? ?b] => destruct (Z.leb_spec a b); [| lia]
            end; cbn [insert_row fst]).
    reflexivity. }
  assert (Hspan : time_span l = Some (start, start + 4 * minute_ns)).
  { subst l. unfold five_closes, time_span, index_min, index_max, minute_ns.
    cbn [rows map fold_left fst]. f_equal. f_equal; lia. }
  rewrite Hsort, Hspan.
  unfold bucket_origin. rewrite Haligned, Z.sub_0_r.
  replace ((start + 4 * minute_ns - start) / (5 * minute_ns) + 1) with 1
    by (replace (start + 4 * minute_ns - start) with (4 * minute_ns) by lia;
        reflexivity).
  change (Z.to_nat 1) with 1%nat. unfold bucket_row. cbn [seq map].
  replace (start + Z.of_nat 0 * (5 * minute_ns)) with start by lia.
  rewrite (bucket_all start (5 * minute_ns) l Hl).
  reflexivity.
Qed.

(** C5, as first stated, fails on five one-minute rows with the closes 1 to
    5 that start one minute past midnight: buckets are counted from
    midnight, not from the first row, so the rows fall in two buckets and
    the result has two rows, with the closes 4 and 5, not one row. *)
Lemma resample_history_df_off_boundary :
  resample_history_df Z.add 0 Z.ltb None
    (five_closes (new_year_2017 + minute_ns)) 5 "close"
  = inr (mkDataFrame ["close"]
           [(new_year_2017, [Some 4]);
            (new_year_2017 + 5 * minute_ns, [Some 5])]) ∧
  ¬ (∃ lo, resample_history_df Z.add 0 Z.ltb None
             (five_closes (new_year_2017 + minute_ns)) 5 "close"
           = inr (mkDataFrame ["close"] [(lo, [Some 5])])).
Proof.
  split; [vm_compute; reflexivity |].
  intros [lo H]. vm_compute in H. discriminate H.
Qed.

(** C5 (amended): for a candle size above 1 and one of the five fields,
    [resample_history_df] returns a table with the columns of its input
    whose rows are buckets of [candle_size] minutes, counted from midnight
    of the day of the earliest row: every label is a whole number of
    buckets after that midnight, no bucket ends before the earliest row or
    starts after the latest one, each bucket starts where the one before
    ends, and every row of the input lies in exactly one of them.  The
    rows of a bucket are the rows of the input with a time stamp from its
    label up to, and without, the next label, each as often as the input
    has it, in time order, rows with one time stamp in the order of the
    input.  Every cell is the reduction, chosen by the field, of the
    numbers that its column has in the rows of its bucket: the first for
    "open", the greatest for "high", the least for "low", the last for
    "close", the sum for "volume"; without any number the cell is NaN, or
    for "volume" what [sum] gives for no number.  Five one-minute rows with
    the closes 1 to 5 whose first row is on a five-minute boundary, counted
    from midnight, resampled to five minutes on "close" give one row with
    the close 5. *)
Theorem resample_history_df_reduces_buckets {num : Type}
    (add : num → num → num) (zero : num) (ltb : num → num → bool)
    (sum_of_nothing : option num)
    (ltb_irrefl : ∀ x, ltb x x = false)
    (ltb_trans : ∀ x y z, ltb x y = true → ltb y z = true → ltb x z = true)
    (df : DataFrame num) (candle_size : Z) (field : string) (h : how) :
  1 < candle_size →
  (field = "open"%string ∧ h = First) ∨ (field = "high"%string ∧ h = Max) ∨
  (field = "low"%string ∧ h = Min) ∨ (field = "close"%string ∧ h = Last) ∨
  (field = "volume"%string ∧ h = Sum) →
  let width := candle_size * minute_ns in
  (∃ out,
     resample_history_df add zero ltb sum_of_nothing df candle_size field
     = inr out ∧
     columns out = columns df ∧
     (∀ k lo cells,
        rows out !! k = Some (lo, cells) →
        ∃ rmin rmax m,
          rmin ∈ rows df ∧ rmax ∈ rows df ∧
          (∀ r, r ∈ rows df → fst rmin <= fst r <= fst rmax) ∧
          0 <= m ∧ lo = fst rmin - fst rmin mod day_ns + m * width ∧
          fst rmin < lo + width ∧ lo <= fst rmax) ∧
     (∀ k lo cells lo' cells',
        rows out !! k = Some (lo, cells) →
        rows out !! S k = Some (lo', cells') → lo' = lo + width) ∧
     (∀ t c, (t, c) ∈ rows df →
        ∃ k lo cells,
          rows out !! k = Some (lo, cells) ∧ lo <= t < lo + width ∧
          ∀ k' lo' cells',
            rows out !! k' = Some (lo', cells') →
            lo' <= t < lo' + width → k' = k) ∧
     (∀ k lo cells,
        rows out !! k = Some (lo, cells) →
        length cells = length (columns df) ∧
        ∃ group,
          let inside := filter (fun r => lo <= fst r < lo + width) (rows df) in
          group ≡ₚ inside ∧
          StronglySorted (fun a b => fst a <= fst b) group ∧
          (∀ t, filter (fun r => fst r = t) group
                = filter (fun r => fst r = t) inside) ∧
          ∀ j, (j < length (columns df))%nat →
               let vs := omap (fun r => mjoin (snd r !! j)) group in
               (vs = [] →
                cells !! j
                = Some (match h with Sum => sum_of_nothing | _ => None end)) ∧
               (vs ≠ [] →
                ∃ v, cells !! j = Some (Some v) ∧
                     reduces add zero ltb h vs v))) ∧
  (∀ start,
     (start mod day_ns) mod (5 * minute_ns) = 0 →
     resample_history_df Z.add 0 Z.ltb None (five_closes start) 5 "close"
     = inr (mkDataFrame ["close"] [(start, [Some 5])])).
Proof.
  intros Hcs Hfield width. split; [| exact five_closes_on_boundary].
  apply resample_history_df_buckets; try assumption.
  destruct Hfield as [[-> ->] | [[-> ->] | [[-> ->] | [[-> ->] | [-> ->]]]]];
    reflexivity.
Qed.

Lemma resample_history_df_reduces_buckets_witness :
  1 < 5 ∧
  (∃ out,
     resample_history_df Z.add 0 Z.ltb None
       (five_closes (new_year_2017 + minute_ns)) 5 "close" = inr out ∧
     columns out = ["close"]%string ∧
     ∀ k lo cells,
       rows out !! k = Some (lo, cells) →
       ∃ group,
         group ≡ₚ filter (fun r => lo <= fst r < lo + 5 * minute_ns)
                    (rows (five_closes (new_year_2017 + minute_ns))) ∧
         (omap (fun r => mjoin (snd r !! 0%nat)) group ≠ [] →
          ∃ v, cells !! 0%nat = Some (Some v) ∧
               last (omap (fun r => mjoin (snd r !! 0%nat)) group) = Some v)) ∧
  ((new_year_2017 mod day_ns) mod (5 * minute_ns) = 0 ∧
   resample_history_df Z.add 0 Z.ltb None (five_closes new_year_2017) 5 "close"
   = inr (mkDataFrame ["close"] [(new_year_2017, [Some 5])])).
Proof.
  split; [reflexivity |].
  destruct (resample_history_df_reduces_buckets Z.add 0 Z.ltb None
              Z.ltb_irrefl
              (fun x y z Hxy Hyz =>
                 proj2 (Z.ltb_lt x z)
                   (Z.lt_trans x y z (proj1 (Z.ltb_lt x y) Hxy)
                      (proj1 (Z.ltb_lt y z) Hyz)))
              (five_closes (new_year_2017 + minute_ns)) 5 "close" Last
              eq_refl
              (or_intror (or_intror (or_intror (or_introl (conj eq_refl eq_refl))))))
    as [[out [Hout [Hcols [_ [_ [_ Hcells]]]]]] Hexample].
  split.
  - exists out. split; [exact Hout |]. split; [exact Hcols |].
    intros k lo cells Hk.
    destruct (Hcells k lo cells Hk) as [_ [group [Hperm [_ [_ Hj]]]]].
    exists group. split; [exact Hperm |].
    exact (proj2 (Hj 0%nat (le_n 1))).
  - split; [reflexivity |]. apply Hexample. reflexivity.
Defined.

(** C6, as first stated, fails for a candle size of 1: the field is not
    looked at and the table is returned. *)
Lemma resample_history_df_unknown_field_at_one :
  ("price"%string ∉ ["open"; "high"; "low"; "close"; "volume"]%string) ∧
  resample_history_df Z.add 0 Z.ltb None (five_closes new_year_2017) 1 "price"
  = inr (five_closes new_year_2017).
Proof.
  split; [| reflexivity].
  intros H. repeat (apply elem_of_cons in H as [H | H]; [discriminate |]).
  apply elem_of_nil in H as [].
Qed.

(** C6 (amended): for every table, every candle size above 1 and every
    field name outside open, high, low, close and volume,
    [resample_history_df] raises the invalid-field error; for every candle
    size of 1 or less, zero and the negative ones included, the field name
    is not looked at, whether it is one of the five or not, and the table
    is returned as it was given. *)
Theorem resample_history_df_invalid_field {num : Type}
    (add : num → num → num) (zero : num) (ltb : num → num → bool)
    (sum_of_nothing : option num)
    (df : DataFrame num) (candle_size : Z) (field : string) :
  (1 < candle_size →
   field ∉ ["open"; "high"; "low"; "close"; "volume"]%string →
   resample_history_df add zero ltb sum_of_nothing df candle_size field
   = inl (ValueError "Invalid field.")) ∧
  (candle_size <= 1 →
   resample_history_df add zero ltb sum_of_nothing df candle_size field
   = inr df).
Proof.
  unfold resample_history_df. split.
  - intros Hcs Hfield. destruct (Z.ltb_spec 1 candle_size); [| lia].
    rewrite (field_how_None field Hfield). reflexivity.
  - intros Hcs. destruct (Z.ltb_spec 1 candle_size); [lia | reflexivity].
Qed.

Lemma resample_history_df_invalid_field_witness :
  (1 < 5 ∧
   ("price"%string ∉ ["open"; "high"; "low"; "close"; "volume"]%string) ∧
   resample_history_df Z.add 0 Z.ltb None (five_closes new_year_2017) 5 "price"
   = inl (ValueError "Invalid field.")) ∧
  (-3 <= 1 ∧
   resample_history_df Z.add 0 Z.ltb None (five_closes new_year_2017) (-3) "price"
   = inr (five_closes new_year_2017)) ∧
  (0 <= 1 ∧
   resample_history_df Z.add 0 Z.ltb None (five_closes new_year_2017) 0 "close"
   = inr (five_closes new_year_2017)).
Proof.
  assert (Hnot : "price"%string ∉ ["open"; "high"; "low"; "close"; "volume"]%string).
  { intros H. repeat (apply elem_of_cons in H as [H | H]; [discriminate |]).
    apply elem_of_nil in H as []. }
  split; [| split].
  - split; [reflexivity |]. split; [exact Hnot |].
    apply (proj1 (resample_history_df_invalid_field Z.add 0 Z.ltb None
                    (five_closes new_year_2017) 5 "price") eq_refl Hnot).
  - split; [discriminate |].
    apply (proj2 (resample_history_df_invalid_field Z.add 0 Z.ltb None
                    (five_closes new_year_2017) (-3) "price")).
    discriminate.
  - split; [discriminate |].
    apply (proj2 (resample_history_df_invalid_field Z.add 0 Z.ltb None
                    (five_closes new_year_2017) 0 "close")).
    discriminate.
Defined.

(** C7: with a candle size of 1 [resample_history_df] returns the table it
    was given, whatever the table and the field name. *)
Theorem resample_history_df_candle_one {num : Type}
    (add : num → num → num) (zero : num) (ltb : num → num → bool)
    (sum_of_nothing : option num)
    (df : DataFrame num) (field : string) :
  resample_history_df add zero ltb sum_of_nothing df 1 field = inr df.
Proof. reflexivity. Qed.

(** * Further properties *)

(** ** [get_frequency] on well-formed and on malformed expressions *)

Lemma digit_not_newline (c : ascii) :
  Str.is_digit c = true → is_newline c = false.
Proof.
  rewrite is_digit_code. intros Hc. unfold is_newline.
  apply Ascii.eqb_neq. intros ->. vm_compute in Hc. intuition congruence.
Qed.

Lemma digit_not_unit_letter (c : ascii) :
  Str.is_digit c = true → is_unit_letter c = false.
Proof.
  rewrite is_digit_code. intros Hc. unfold is_unit_letter.
  repeat match goal with
         | |- context [Ascii.eqb c ?x] =>
             destruct (Ascii.eqb_spec c x) as [-> | _];
             [vm_compute in Hc; intuition congruence |]
         end.
  reflexivity.
Qed.

Lemma unit_letter_not_newline (c : ascii) :
  is_unit_letter c = true → is_newline c = false.
Proof.
  unfold is_unit_letter. rewrite !orb_true_iff, !Ascii.eqb_eq.
  intros [[[-> | ->] | ->] | ->]; reflexivity.
Qed.

(** On digits followed by a unit letter the greedy [.*] takes the digits
    and leaves the letter. *)
Lemma match_dotstar_unit_digits (digits : string) (u : ascii) :
  all_digits digits = true → is_unit_letter u = true →
  match_dotstar_unit (digits +:+ String u EmptyString)
  = Some (digits, String u EmptyString).
Proof.
  intros Hd Hu.
  induction digits as [|c digits IH].
  - change (match_dotstar_unit (String u EmptyString)
            = Some (EmptyString, String u EmptyString)).
    cbn [match_dotstar_unit].
    rewrite (unit_letter_not_newline u Hu), Hu. reflexivity.
  - change (String c digits +:+ String u EmptyString)
      with (String c (digits +:+ String u EmptyString)).
    cbn [match_dotstar_unit].
    cbn in Hd. apply andb_true_iff in Hd as [Hc Hd].
    rewrite (digit_not_newline c Hc), (IH Hd). reflexivity.
Qed.

Lemma rstrip_digits (s : string) : all_digits s = true → Str.rstrip s = s.
Proof.
  induction s as [|c s IH]; cbn; [reflexivity |].
  intros Hd. apply andb_true_iff in Hd as [Hc Hd]. rewrite (IH Hd).
  destruct s; [rewrite (digit_not_space c Hc) |]; reflexivity.
Qed.

Lemma int_digits_decimal (s : string) : ∀ acc,
  all_digits s = true → int_digits acc false s = Some (decimal_from acc s).
Proof.
  induction s as [|c s IH]; intros acc Hd; cbn; [reflexivity |].
  cbn in Hd. apply andb_true_iff in Hd as [Hc Hd]. rewrite Hc. apply IH, Hd.
Qed.

(** [int] of a string of digits is the number they denote. *)
Lemma py_int_digits (s : string) :
  s ≠ EmptyString → all_digits s = true → py_int s = inr (decimal_value s).
Proof.
  intros Hne Hd. destruct s as [|c s]; [congruence |].
  pose proof Hd as Hd'. cbn in Hd'. apply andb_true_iff in Hd' as [Hc Hs].
  unfold py_int, Str.strip. cbn [Str.lstrip]. rewrite (digit_not_space c Hc).
  rewrite (rstrip_digits _ Hd).
  destruct (digit_not_sign c Hc) as [-> ->].
  unfold int_magnitude. rewrite Hc, (int_digits_decimal s _ Hs).
  reflexivity.
Qed.

(** An expression that starts with a digit is not an alias. *)
Lemma normalize_alias_digit_head (c : ascii) (s : string) :
  Str.is_digit c = true → normalize_alias (String c s) = String c s.
Proof.
  rewrite is_digit_code. intros Hc. unfold normalize_alias.
  destruct (String.eqb_spec (String c s) "daily") as [[= -> _] | _];
    [vm_compute in Hc; intuition congruence |].
  destruct (String.eqb_spec (String c s) "minute") as [[= -> _] | _];
    [vm_compute in Hc; intuition congruence |].
  reflexivity.
Qed.

(** X1: every expression made of one or more digits and one unit letter is
    accepted: the magnitude is the number the digits denote in base ten, the
    unit is the letter as it was written, and the data frequency is the one
    asked for, turned to "daily" under a day unit when it was "minute" and to
    "minute" under a minute unit when it was "daily". *)
Theorem get_frequency_well_formed (digits : string) (u : ascii)
    (data_frequency : string) :
  digits ≠ EmptyString → all_digits digits = true → is_unit_letter u = true →
  get_frequency (digits +:+ String u EmptyString) data_frequency =
  inr (decimal_value digits, String u EmptyString,
       if String.eqb (Str.lower (String u EmptyString)) "d" then
         if String.eqb data_frequency "minute" then "daily"%string
         else data_frequency
       else
         if String.eqb data_frequency "daily" then "minute"%string
         else data_frequency).
Proof.
  intros Hne Hd Hu. rewrite get_frequency_unfold.
  destruct digits as [|c digits]; [congruence |].
  pose proof Hd as Hd'. cbn in Hd'. apply andb_true_iff in Hd' as [Hc Hs].
  change (String c digits +:+ String u EmptyString)
    with (String c (digits +:+ String u EmptyString)).
  rewrite (normalize_alias_digit_head c _ Hc).
  unfold re_match_frequency. rewrite Hc, (match_dotstar_unit_digits digits u Hs Hu).
  rewrite (py_int_digits (String c digits) Hne Hd).
  destruct (unit_letter_lower u Hu) as [Hl | Hl]; rewrite Hl; reflexivity.
Qed.

Lemma get_frequency_well_formed_witness :
  ("007"%string ≠ EmptyString ∧ all_digits "007" = true ∧
   is_unit_letter "D" = true) ∧
  get_frequency "007D" "minute" = inr (7, "D", "daily")%string.
Proof.
  split; [repeat split; discriminate || reflexivity |].
  apply (get_frequency_well_formed "007" "D" "minute");
    [discriminate | reflexivity | reflexivity].
Defined.

(** X2: an expression that is not an alias and does not start with a digit
    (the empty one included) is rejected, with [TypeError] and not with the
    invalid-frequency error: the [raise] statement calls the error class
    with a positional argument, which the class does not take. *)
Theorem get_frequency_needs_leading_digit (freq data_frequency : string) :
  freq ≠ "daily"%string → freq ≠ "minute"%string →
  (∀ c s, freq = String c s → Str.is_digit c = false) →
  ∃ msg, get_frequency freq data_frequency = inl (TypeError msg).
Proof.
  intros Hd Hm Hhead.
  assert (Hn : normalize_alias freq = freq).
  { unfold normalize_alias.
    destruct (String.eqb_spec freq "daily"); [congruence |].
    destruct (String.eqb_spec freq "minute"); [congruence | reflexivity]. }
  eexists. apply get_frequency_no_match. rewrite Hn.
  destruct freq as [|c s]; [reflexivity |]. cbn.
  rewrite (Hhead c s eq_refl). reflexivity.
Qed.

Lemma get_frequency_needs_leading_digit_witness :
  ∃ msg, get_frequency "m5" "daily" = inl (TypeError msg).
Proof.
  apply get_frequency_needs_leading_digit; try discriminate.
  intros c s [= <- <-]. reflexivity.
Defined.

Lemma match_dotstar_unit_none (s : string) :
  has_unit_letter s = false → match_dotstar_unit s = None.
Proof.
  induction s as [|c s IH]; cbn; [reflexivity |].
  intros H. apply orb_false_iff in H as [Hc Hs].
  rewrite (IH Hs), Hc. destruct (is_newline c); reflexivity.
Qed.

(** X3: an expression without any of the letters m, M, d, D is rejected,
    with [TypeError] and not with the invalid-frequency error: the [raise]
    statement calls the error class with a positional argument, which the
    class does not take. *)
Theorem get_frequency_needs_unit_letter (freq data_frequency : string) :
  has_unit_letter freq = false →
  ∃ msg, get_frequency freq data_frequency = inl (TypeError msg).
Proof.
  intros Hu.
  assert (Hn : normalize_alias freq = freq).
  { unfold normalize_alias.
    destruct (String.eqb_spec freq "daily") as [-> | _]; [discriminate |].
    destruct (String.eqb_spec freq "minute") as [-> | _]; [discriminate |].
    reflexivity. }
  eexists. apply get_frequency_no_match. rewrite Hn.
  destruct freq as [|c s]; [reflexivity |]. cbn in Hu |- *.
  apply orb_false_iff in Hu as [_ Hs].
  rewrite (match_dotstar_unit_none s Hs). destruct (Str.is_digit c); reflexivity.
Qed.

Lemma get_frequency_needs_unit_letter_witness :
  has_unit_letter "15" = false ∧
  ∃ msg, get_frequency "15" "daily" = inl (TypeError msg).
Proof.
  split; [reflexivity |].
  apply (get_frequency_needs_unit_letter "15" "daily"). reflexivity.
Defined.

(** ** The symbol cache, further *)

Section CacheFacts.

Context {Json : Type}.
Variable data_root : gmap string string → string.
Variable network :
  Z → string → string → gmap string File → gmap string File * result unit.
Variable json_load : string → result Json.

(** X4: [get_exchange_symbols] never uses its [environ] argument: neither
    the file it reads nor the download looks at it, so the call does the same
    as the call without one. *)
Theorem get_exchange_symbols_ignores_environ (name : string)
    (environ : option (gmap string string)) (w : World) :
  get_exchange_symbols data_root network json_load name environ w =
  get_exchange_symbols data_root network json_load name None w.
Proof. rewrite !get_exchange_symbols_run. reflexivity. Qed.

Lemma symbols_path_environ (name : string)
    (environ : option (gmap string string)) (w w' : World) :
  os_environ w' = os_environ w →
  symbols_path data_root name environ w' = symbols_path data_root name environ w.
Proof.
  intros He. unfold symbols_path, environ_in_force. rewrite He. reflexivity.
Qed.

Lemma refresh_due_files (path : string) (w w' : World) :
  files w' = files w → now w' = now w →
  refresh_due path w' = refresh_due path w.
Proof. intros Hf Hn. unfold refresh_due. rewrite Hf, Hn. reflexivity. Qed.

(** Without a refresh the snapshot on disk is read, and only a directory is
    made. *)
Lemma get_exchange_symbols_fresh (name : string)
    (environ : option (gmap string string)) (w : World) :
  refresh_due (symbols_path data_root name None w) w = false →
  get_exchange_symbols data_root network json_load name environ w =
  (add_dir (join_step (join_step (data_root (os_environ w)) "exchanges") name) w,
   read_snapshot json_load name (symbols_path data_root name None w) (files w)).
Proof.
  intros Hdue. rewrite get_exchange_symbols_run. cbv zeta. rewrite Hdue.
  reflexivity.
Qed.

(** X5: when the snapshot is there and less than two days old, a call
    makes no request and changes no file, and a second call right after it
    returns what the first returned, again without a request. *)
Theorem get_exchange_symbols_repeatable (name : string)
    (environ : option (gmap string string)) (w : World) :
  refresh_due (symbols_path data_root name None w) w = false →
  let first := get_exchange_symbols data_root network json_load name environ w in
  let second :=
    get_exchange_symbols data_root network json_load name environ (fst first) in
  files (fst first) = files w ∧
  requests (fst first) = requests w ∧
  snd second = snd first ∧
  requests (fst second) = requests w.
Proof.
  intros Hdue. cbv zeta.
  rewrite (get_exchange_symbols_fresh name environ w Hdue).
  cbn [fst snd]. split; [reflexivity |]. split; [reflexivity |].
  set (w1 := add_dir _ w).
  assert (Hp : symbols_path data_root name None w1
               = symbols_path data_root name None w) by reflexivity.
  assert (Hdue1 : refresh_due (symbols_path data_root name None w1) w1 = false).
  { rewrite Hp. exact Hdue. }
  rewrite (get_exchange_symbols_fresh name environ w1 Hdue1).
  cbn [fst snd]. rewrite Hp. split; reflexivity.
Qed.

End CacheFacts.

Lemma get_exchange_symbols_repeatable_witness :
  refresh_due bitfinex_symbols (world_with_snapshot day_ns) = false ∧
  snd (get_exchange_symbols home_data_root (urllib_network offline) text_json
         "bitfinex" None
         (fst (get_exchange_symbols home_data_root (urllib_network offline)
                 text_json "bitfinex" None (world_with_snapshot day_ns)))) =
  snd (get_exchange_symbols home_data_root (urllib_network offline) text_json
         "bitfinex" None (world_with_snapshot day_ns)).
Proof.
  split; [reflexivity |].
  apply (get_exchange_symbols_repeatable home_data_root (urllib_network offline)
           text_json "bitfinex" None (world_with_snapshot day_ns)).
  reflexivity.
Defined.



(** ** Where the files are *)

Lemma append_nonempty (s t : string) :
  t ≠ EmptyString → s +:+ t ≠ EmptyString.
Proof. destruct s; [exact id | discriminate]. Qed.

Lemma endswith_append (c : ascii) (s t : string) :
  t ≠ EmptyString → Str.endswith c (s +:+ t) = Str.endswith c t.
Proof.
  intros Ht. induction s as [|a s IH]; [reflexivity |].
  change (String a s +:+ t) with (String a (s +:+ t)).
  cbn [Str.endswith]. rewrite IH.
  destruct (s +:+ t) eqn:Hst; [| reflexivity].
  exfalso. exact (append_nonempty s t Ht Hst).
Qed.

Lemma append_assoc (s t u : string) : (s +:+ t) +:+ u = s +:+ (t +:+ u).
Proof.
  induction s as [|a s IH]; [reflexivity |].
  change ((String a s +:+ t) +:+ u) with (String a ((s +:+ t) +:+ u)).
  rewrite IH. reflexivity.
Qed.

(** A component that is not absolute is put behind a path that is not
    empty and does not end with a slash, with a slash between them. *)
Lemma join_step_plain (path b : string) :
  path ≠ EmptyString → Str.endswith "/" path = false →
  Str.startswith "/" b = false →
  join_step path b = path +:+ String "/" b.
Proof.
  intros Hne Hend Hstart. unfold join_step. rewrite Hstart, Hend.
  destruct (String.eqb_spec path ""); [congruence | reflexivity].
Qed.

(** X7: under a data root and an exchange name that are ordinary (not
    empty, no slash at the end, the name not starting with a slash) the
    snapshot of the exchange is the file "symbols.json" of the folder named
    after the exchange in the folder "exchanges" of the data root, and
    asking for its name creates that folder. *)
Theorem get_exchange_symbols_filename_layout
    (data_root : gmap string string → string) (name : string)
    (environ : option (gmap string string)) (w : World) :
  let root := data_root (environ_in_force environ w) in
  root ≠ EmptyString → Str.endswith "/" root = false →
  name ≠ EmptyString → Str.startswith "/" name = false →
  Str.endswith "/" name = false →
  get_exchange_symbols_filename data_root name environ w =
  (add_dir (root +:+ "/exchanges/" +:+ name) w,
   inr (root +:+ "/exchanges/" +:+ name +:+ "/symbols.json")).
Proof.
  intros root Hroot Hroot_end Hname Hname_start Hname_end.
  rewrite get_exchange_symbols_filename_run. unfold symbols_path. fold root.
  assert (H1 : join_step root "exchanges" = root +:+ "/exchanges")
    by (apply join_step_plain; auto).
  assert (H2 : join_step (root +:+ "/exchanges") name
               = root +:+ "/exchanges/" +:+ name).
  { rewrite join_step_plain; auto.
    - rewrite append_assoc. reflexivity.
    - apply append_nonempty. discriminate.
    - rewrite endswith_append by discriminate. reflexivity. }
  assert (H3 : join_step (root +:+ "/exchanges/" +:+ name) "symbols.json"
               = root +:+ "/exchanges/" +:+ name +:+ "/symbols.json").
  { rewrite join_step_plain; auto.
    - rewrite !append_assoc. reflexivity.
    - rewrite <- append_assoc. apply append_nonempty, Hname.
    - rewrite <- append_assoc, endswith_append by exact Hname. exact Hname_end. }
  rewrite H1, H2, H3. reflexivity.
Qed.

Lemma get_exchange_symbols_filename_layout_witness :
  snd (get_exchange_symbols_filename home_data_root "bitfinex" None
         (world_with_snapshot 0))
  = inr bitfinex_symbols.
Proof.
  rewrite (get_exchange_symbols_filename_layout home_data_root "bitfinex" None
             (world_with_snapshot 0));
    [reflexivity | discriminate | reflexivity | discriminate
     | reflexivity | reflexivity].
Defined.

(** X8: an exchange name that starts with a slash leaves the data root: the
    snapshot is then looked for under that name, whatever the data root and
    the environment are. *)
Theorem get_exchange_symbols_filename_absolute
    (data_root : gmap string string → string) (name : string)
    (environ : option (gmap string string)) (w : World) :
  Str.startswith "/" name = true →
  get_exchange_symbols_filename data_root name environ w =
  (add_dir name w, inr (join_step name "symbols.json")).
Proof.
  intros Habs. rewrite get_exchange_symbols_filename_run.
  unfold symbols_path.
  assert (H : ∀ p, join_step p name = name)
    by (intros p; unfold join_step; rewrite Habs; reflexivity).
  rewrite !H. reflexivity.
Qed.

Lemma get_exchange_symbols_filename_absolute_witness :
  Str.startswith "/" "/tmp/x" = true ∧
  get_exchange_symbols_filename home_data_root "/tmp/x" None
    (world_with_snapshot 0)
  = (add_dir "/tmp/x" (world_with_snapshot 0), inr "/tmp/x/symbols.json"%string).
Proof.
  split; [reflexivity |].
  apply (get_exchange_symbols_filename_absolute home_data_root "/tmp/x" None
           (world_with_snapshot 0)).
  reflexivity.
Defined.

(** ** Saving and reading back *)

Lemma written_lookup (path body : string) (w : World) :
  files (written path body w) !! path =
  Some (mkFile body (now w)
          (match files w !! path with Some f => readable f | None => true end)).
Proof. unfold written. cbn [files set_files]. apply lookup_insert_eq. Qed.

Lemma written_lookup_ne (path path' body : string) (w : World) :
  path ≠ path' → files (written path body w) !! path' = files w !! path'.
Proof.
  intros Hne. unfold written. cbn [files set_files].
  apply lookup_insert_ne, Hne.
Qed.

(** Writing twice is writing the last text; the permissions are those the
    file had at first. *)
Lemma written_twice_lookup (path body body' : string) (w : World) :
  files (written path body' (written path body w)) !! path =
  Some (mkFile body' (now w)
          (match files w !! path with Some f => readable f | None => true end)).
Proof. rewrite written_lookup, written_lookup. reflexivity. Qed.

Section WriteFacts.

Context {Obj num : Type}.
Variable data_root : gmap string string → string.
Variable may_write : World → string → bool.
Variable pickle_dump : Obj → string * result unit.
Variable to_csv : DataFrame num → string * result unit.
Variable json_dump : json_value → string * result unit.
Variable json_load : string → result json_value.
Variable pickle_load : string → result Obj.
Variable read_csv : string → result (DataFrame num).

Lemma with_rel_path_created_run (folder : string) (rel_path : option string)
    (w : World) :
  with_rel_path_created folder rel_path w =
  (match rel_path with
   | Some r => add_dir (join_step folder r) w
   | None => w
   end,
   inr (match rel_path with Some r => join_step folder r | None => folder end)).
Proof. destruct rel_path; reflexivity. Qed.

(** The common course of the two save functions on a named algorithm: the
    folders are made, the file is opened, which empties it, and the
    serializer writes. *)
Lemma save_run (a key ext : string) (out : string * result unit)
    (environ : option (gmap string string)) (rel_path : option string)
    (w : World) :
  (get_algo_folder data_root (Some a) environ ≫= λ folder,
     with_rel_path_created folder rel_path ≫= λ folder,
     lift (os_path_join folder [Some (key +:+ ext)]) ≫= λ filename,
     open_write may_write filename ≫= λ _, dump_to filename out) w =
  let w' := algo_folders_made data_root a environ rel_path w in
  let path := algo_file_path data_root a key ext environ rel_path w in
  if may_write w' path
  then (written path (fst out) (written path "" w'), snd out)
  else (w', inl (IOError "cannot open for writing")).
Proof.
  io_bind. rewrite get_algo_folder_run. cbv beta iota zeta.
  io_bind. rewrite with_rel_path_created_run. cbv beta iota.
  io_bind. cbv [lift os_path_join join_from]. cbv beta iota.
  io_bind. unfold open_write, algo_folders_made, algo_folder_path, algo_file_path.
  destruct rel_path as [r|]; cbv beta iota zeta;
    destruct (may_write _ _); reflexivity.
Qed.

Lemma algo_file_path_after (a key ext : string)
    (environ : option (gmap string string)) (rel_path : option string)
    (w w' : World) :
  os_environ w' = os_environ w →
  algo_file_path data_root a key ext environ rel_path w' =
  algo_file_path data_root a key ext environ rel_path w.
Proof.
  intros He. unfold algo_file_path, environ_in_force. rewrite He. reflexivity.
Qed.

Lemma files_algo_folders_made (a : string)
    (environ : option (gmap string string)) (rel_path : option string)
    (w : World) :
  files (algo_folders_made data_root a environ rel_path w) = files w.
Proof. unfold algo_folders_made. destruct rel_path; reflexivity. Qed.

(** What a save leaves in the file of the key, when the file can be
    opened. *)
Lemma save_algo_object_file (a key : string) (obj : Obj)
    (environ : option (gmap string string)) (rel_path : option string)
    (w : World) :
  let path := algo_file_path data_root a key ".p" environ rel_path w in
  let saved :=
    save_algo_object data_root may_write pickle_dump (Some a) key obj environ
      rel_path w in
  may_write (algo_folders_made data_root a environ rel_path w) path = true →
  snd saved = snd (pickle_dump obj) ∧
  os_environ (fst saved) = os_environ w ∧
  files (fst saved) !! path =
  Some (mkFile (fst (pickle_dump obj)) (now w)
          (match files w !! path with Some f => readable f | None => true end)) ∧
  ∀ path', path ≠ path' → files (fst saved) !! path' = files w !! path'.
Proof.
  intros path saved Hmay. subst saved. unfold save_algo_object.
  rewrite save_run. cbv zeta. fold path. rewrite Hmay. cbn [fst snd].
  split; [reflexivity |]. split.
  { unfold algo_folders_made. destruct rel_path; reflexivity. }
  split.
  - rewrite written_twice_lookup, files_algo_folders_made.
    unfold algo_folders_made. destruct rel_path; reflexivity.
  - intros path' Hne. rewrite !written_lookup_ne by exact Hne.
    apply (f_equal (fun fs => fs !! path')), files_algo_folders_made.
Qed.

(** X9: an object saved under a name and key is what [get_algo_object]
    returns for them afterwards, whatever was stored before, provided the
    file can be opened for writing, pickling returns, the text unpickles to
    the object and a file already there is readable. *)
Theorem save_algo_object_then_get (a key : string) (obj : Obj) (text : string)
    (environ : option (gmap string string)) (rel_path : option string)
    (w : World) :
  let path := algo_file_path data_root a key ".p" environ rel_path w in
  let saved :=
    save_algo_object data_root may_write pickle_dump (Some a) key obj environ
      rel_path w in
  may_write (algo_folders_made data_root a environ rel_path w) path = true →
  pickle_dump obj = (text, inr tt) →
  pickle_load text = inr obj →
  (∀ f, files w !! path = Some f → readable f = true) →
  snd saved = inr tt ∧
  snd (get_algo_object data_root pickle_load (Some a) key environ rel_path
         (fst saved)) = inr (Some obj).
Proof.
  intros path saved Hmay Hdump Hload Hread.
  destruct (save_algo_object_file a key obj environ rel_path w Hmay)
    as [Hres [Henv [Hfile _]]].
  fold path saved in Hres, Henv, Hfile. rewrite Hdump in Hres, Hfile.
  split; [exact Hres |].
  rewrite get_algo_object_run.
  rewrite (algo_file_path_after a key ".p" environ rel_path w _ Henv).
  fold path. rewrite Hfile. cbn [readable content fst].
  destruct (files w !! path) as [f|] eqn:Hf.
  - rewrite (Hread f eq_refl), Hload. reflexivity.
  - rewrite Hload. reflexivity.
Qed.

(** X10: when pickling raises, [save_algo_object] raises that error, and
    the file of the key then holds what the pickler had written, not what it
    held before: if that text does not unpickle, [get_algo_object] returns
    [None] although an object had been saved under the key. *)
Theorem save_algo_object_failure_loses_object (a key : string) (obj : Obj)
    (text : string) (e e' : exn)
    (environ : option (gmap string string)) (rel_path : option string)
    (w : World) :
  let path := algo_file_path data_root a key ".p" environ rel_path w in
  let saved :=
    save_algo_object data_root may_write pickle_dump (Some a) key obj environ
      rel_path w in
  may_write (algo_folders_made data_root a environ rel_path w) path = true →
  pickle_dump obj = (text, inl e) →
  pickle_load text = inl e' →
  snd saved = inl e ∧
  (∃ f, files (fst saved) !! path = Some f ∧ content f = text) ∧
  snd (get_algo_object data_root pickle_load (Some a) key environ rel_path
         (fst saved)) = inr None.
Proof.
  intros path saved Hmay Hdump Hload.
  destruct (save_algo_object_file a key obj environ rel_path w Hmay)
    as [Hres [Henv [Hfile _]]].
  fold path saved in Hres, Henv, Hfile. rewrite Hdump in Hres, Hfile.
  cbn [fst snd] in Hres, Hfile.
  split; [exact Hres |]. split; [eexists; split; [exact Hfile | reflexivity] |].
  rewrite get_algo_object_run.
  rewrite (algo_file_path_after a key ".p" environ rel_path w _ Henv).
  fold path. rewrite Hfile. cbn [readable content].
  rewrite Hload. destruct (match files w !! path with
                           | Some f => readable f
                           | None => true
                           end); reflexivity.
Qed.

End WriteFacts.

Lemma save_algo_object_then_get_witness :
  snd (get_algo_object home_data_root text_pickle (Some "algo") "state" None
         (Some "run1")
         (fst (save_algo_object home_data_root always_writable text_dump
                 (Some "algo") "state" "payload"%string None (Some "run1")
                 world_with_empty_csv)))
  = inr (Some "payload"%string).
Proof.
  apply (save_algo_object_then_get home_data_root always_writable text_dump
           text_pickle "algo" "state" "payload"%string "payload" None
           (Some "run1") world_with_empty_csv);
    try reflexivity.
  intros f Hf. vm_compute in Hf. discriminate.
Defined.

Lemma save_algo_object_failure_loses_object_witness :
  let w :=
    fst (save_algo_object home_data_root always_writable text_dump
           (Some "algo") "state" "payload"%string None None
           world_with_empty_csv) in
  snd (get_algo_object home_data_root pickle_rejects_empty (Some "algo")
         "state" None None w) = inr (Some "payload"%string) ∧
  snd (get_algo_object home_data_root pickle_rejects_empty (Some "algo")
         "state" None None
         (fst (save_algo_object home_data_root always_writable failing_dump
                 (Some "algo") "state" "other"%string None None w)))
  = inr None.
Proof.
  cbv zeta. split; [vm_compute; reflexivity |].
  apply (save_algo_object_failure_loses_object home_data_root always_writable
           failing_dump pickle_rejects_empty "algo" "state" "other"%string
           EmptyString (LibraryError "PicklingError") (LibraryError "EOFError")
           None None);
    reflexivity.
Defined.

Section TableAndAuthFacts.

Context {Obj num : Type}.
Variable data_root : gmap string string → string.
Variable may_write : World → string → bool.
Variable pickle_dump : Obj → string * result unit.
Variable to_csv : DataFrame num → string * result unit.
Variable json_dump : json_value → string * result unit.
Variable json_load : string → result json_value.
Variable pickle_load : string → result Obj.
Variable read_csv : string → result (DataFrame num).

(** X12: a table saved under a name and key is what [get_algo_df] returns
    for them afterwards, provided the file can be opened for writing, the
    writer returns, its text reads back as the table and a file already
    there is readable. *)
Theorem save_algo_df_then_get (a key : string) (df : DataFrame num)
    (text : string) (environ : option (gmap string string))
    (rel_path : option string) (w : World) :
  let path := algo_file_path data_root a key ".csv" environ rel_path w in
  let saved :=
    save_algo_df data_root may_write to_csv (Some a) key df environ rel_path w in
  may_write (algo_folders_made data_root a environ rel_path w) path = true →
  to_csv df = (text, inr tt) →
  read_csv text = inr df →
  (∀ f, files w !! path = Some f → readable f = true) →
  snd saved = inr tt ∧
  snd (get_algo_df data_root read_csv (Some a) key environ rel_path (fst saved))
  = inr df.
Proof.
  intros path saved Hmay Hdump Hload Hread.
  assert (Hsaved : saved =
            (written path text
               (written path "" (algo_folders_made data_root a environ rel_path w)),
             inr tt)).
  { subst saved. unfold save_algo_df. rewrite save_run. cbv zeta. fold path.
    rewrite Hmay, Hdump. reflexivity. }
  split; [rewrite Hsaved; reflexivity |].
  rewrite get_algo_df_run.
  assert (Henv : os_environ (fst saved) = os_environ w).
  { rewrite Hsaved. unfold algo_folders_made. destruct rel_path; reflexivity. }
  rewrite (algo_file_path_after data_root a key ".csv" environ rel_path w _ Henv).
  fold path. rewrite Hsaved. cbn [fst].
  rewrite written_twice_lookup, files_algo_folders_made. cbn [readable content].
  destruct (files w !! path) as [f|] eqn:Hf.
  - rewrite (Hread f eq_refl), Hload. reflexivity.
  - rewrite Hload. reflexivity.
Qed.

(** X13: neither save function guards against a null algorithm name: both
    raise the error of the path join and leave the world as it was. *)
Theorem save_null_algo_name (key : string) (obj : Obj) (df : DataFrame num)
    (environ : option (gmap string string)) (rel_path : option string)
    (w : World) :
  save_algo_object data_root may_write pickle_dump None key obj environ
    rel_path w =
  (w, inl (TypeError "expected str, bytes or os.PathLike object, not NoneType")) ∧
  save_algo_df data_root may_write to_csv None key df environ rel_path w =
  (w, inl (TypeError "expected str, bytes or os.PathLike object, not NoneType")).
Proof. split; reflexivity. Qed.

(** X14: reading never writes: after [get_algo_object] or [get_algo_df] on
    a named algorithm the files and the requests are those of before, and
    the only directory made is the folder of the algorithm; the folder of
    the relative path is not made. *)
Theorem algo_reads_leave_files (a key : string)
    (environ : option (gmap string string)) (rel_path : option string)
    (w : World) :
  fst (get_algo_object data_root pickle_load (Some a) key environ rel_path w)
  = add_dir (algo_folder_path data_root a environ w) w ∧
  fst (get_algo_df data_root read_csv (Some a) key environ rel_path w)
  = add_dir (algo_folder_path data_root a environ w) w.
Proof.
  split.
  - unfold get_algo_object. cbv beta iota. rewrite algo_file_run. cbv zeta.
    destruct (files w !! _) as [f|] eqn:Hf; [| reflexivity].
    unfold try_except. io_bind. unfold open_read. rewrite files_add_dir, Hf.
    destruct (readable f); [| reflexivity]. cbv beta iota.
    io_bind. unfold lift. destruct (pickle_load (content f)); reflexivity.
  - unfold get_algo_df. rewrite algo_file_run. cbv zeta.
    destruct (files w !! _) as [f|] eqn:Hf; [| reflexivity].
    unfold try_except. rewrite open_then_parse, files_add_dir, Hf.
    destruct (readable f); [| reflexivity].
    destruct (read_csv (content f)) as [e|d]; [| reflexivity].
    destruct (is_IOError e); reflexivity.
Qed.

(** [get_exchange_auth], run in full. *)
Lemma get_exchange_auth_run (name : string)
    (environ : option (gmap string string)) (w : World) :
  get_exchange_auth data_root may_write json_dump json_load name environ w =
  let path := auth_path data_root name environ w in
  let w' := add_dir (join_step (join_step (data_root (environ_in_force environ w))
                                  "exchanges") name) w in
  match files w !! path with
  | Some f =>
      (w', if readable f then json_load (content f)
           else inl (IOError "Permission denied"))
  | None =>
      if may_write w' path then
        (written path (fst (json_dump (auth_placeholder name)))
           (written path "" w'),
         match snd (json_dump (auth_placeholder name)) with
         | inl e => inl e
         | inr _ => inr (auth_placeholder name)
         end)
      else (w', inl (IOError "cannot open for writing"))
  end.
Proof.
  unfold get_exchange_auth.
  io_bind. change (get_exchange_folder data_root name environ w)
    with (add_dir (join_step (join_step (data_root (environ_in_force environ w))
                                "exchanges") name) w,
          inr (join_step (join_step (data_root (environ_in_force environ w))
                            "exchanges") name) : result string).
  cbv beta iota zeta.
  io_bind. unfold lift at 1, os_path_join, join_from. cbv beta iota.
  fold (auth_path data_root name environ w).
  io_bind. rewrite os_path_isfile_run, files_add_dir. cbv beta iota.
  destruct (files w !! auth_path data_root name environ w) as [f|] eqn:Hf;
    cbv beta iota.
  - rewrite open_then_parse, files_add_dir, Hf. reflexivity.
  - io_bind. unfold open_write. destruct (may_write _ _); [| reflexivity].
    cbv beta iota. io_bind. unfold dump_to. cbv beta iota.
    destruct (snd (json_dump (auth_placeholder name))) as [e|[]]; reflexivity.
Qed.

(** X15: when the credentials file of an exchange is there,
    [get_exchange_auth] returns its parse and writes nothing. *)
Theorem get_exchange_auth_existing (name : string)
    (environ : option (gmap string string)) (w : World) (f : File) :
  files w !! auth_path data_root name environ w = Some f →
  readable f = true →
  let out :=
    get_exchange_auth data_root may_write json_dump json_load name environ w in
  snd out = json_load (content f) ∧ files (fst out) = files w.
Proof.
  intros Hf Hr. cbv zeta. rewrite get_exchange_auth_run. cbv zeta.
  rewrite Hf, Hr. split; reflexivity.
Qed.

(** X16: on a first run, when there is no credentials file and one can be
    written, [get_exchange_auth] does not fail: it returns the placeholder
    with the name of the exchange and an empty key and secret, and leaves
    its serialization in the file; a second call then returns the parse of
    that text, which is the placeholder again when [json.load] undoes
    [json.dump]. *)
Theorem get_exchange_auth_first_run (name : string) (text : string)
    (environ : option (gmap string string)) (w : World) :
  let path := auth_path data_root name environ w in
  let first :=
    get_exchange_auth data_root may_write json_dump json_load name environ w in
  let second :=
    get_exchange_auth data_root may_write json_dump json_load name environ
      (fst first) in
  files w !! path = None →
  may_write (add_dir (join_step (join_step (data_root (environ_in_force environ w))
                                   "exchanges") name) w) path = true →
  json_dump (auth_placeholder name) = (text, inr tt) →
  snd first =
  inr (JDict [("name", JStr name); ("key", JStr ""); ("secret", JStr "")]%string) ∧
  files (fst first) !! path = Some (mkFile text (now w) true) ∧
  snd second = json_load text ∧
  files (fst second) = files (fst first).
Proof.
  intros path first second Hnone Hmay Hdump.
  assert (Hfirst : first =
            (written path text
               (written path ""
                  (add_dir (join_step (join_step
                              (data_root (environ_in_force environ w))
                              "exchanges") name) w)),
             inr (auth_placeholder name))).
  { subst first. rewrite get_exchange_auth_run. cbv zeta. fold path.
    rewrite Hnone, Hmay, Hdump. reflexivity. }
  assert (Hfile : files (fst first) !! path = Some (mkFile text (now w) true)).
  { rewrite Hfirst. cbn [fst]. rewrite written_twice_lookup, files_add_dir, Hnone.
    reflexivity. }
  split; [rewrite Hfirst; reflexivity |]. split; [exact Hfile |].
  subst second. rewrite get_exchange_auth_run. cbv zeta.
  assert (Hpath : auth_path data_root name environ (fst first) = path)
    by (rewrite Hfirst; reflexivity).
  rewrite Hpath, Hfile. cbn [readable content fst snd files add_dir].
  split; reflexivity.
Qed.

End TableAndAuthFacts.

Lemma save_algo_df_then_get_witness :
  snd (get_algo_df home_data_root csv_rejects_empty (Some "algo") "orders" None
         None
         (fst (save_algo_df home_data_root always_writable blank_line_csv
                 (Some "algo") "orders" empty_frame None None
                 world_with_empty_csv)))
  = inr empty_frame.
Proof.
  apply (save_algo_df_then_get home_data_root always_writable blank_line_csv
           csv_rejects_empty "algo" "orders" empty_frame
           (String "010" EmptyString) None None world_with_empty_csv);
    try reflexivity.
  intros f Hf. vm_compute in Hf. injection Hf as <-. reflexivity.
Defined.

Lemma get_exchange_auth_existing_witness :
  snd (get_exchange_auth home_data_root always_writable dump_braces
         json_as_text "bitfinex" None world_with_auth)
  = inr (JStr "{}").
Proof.
  apply (get_exchange_auth_existing home_data_root always_writable dump_braces
           json_as_text "bitfinex" None world_with_auth (mkFile "{}" 0 true));
    reflexivity.
Defined.

Lemma get_exchange_auth_first_run_witness :
  snd (get_exchange_auth home_data_root always_writable dump_braces
         json_as_text "kraken" None world_with_auth)
  = inr (JDict [("name", JStr "kraken"); ("key", JStr ""); ("secret", JStr "")]%string) ∧
  snd (get_exchange_auth home_data_root always_writable dump_braces
         json_as_text "kraken" None
         (fst (get_exchange_auth home_data_root always_writable dump_braces
                 json_as_text "kraken" None world_with_auth)))
  = inr (JStr "{}").
Proof.
  destruct (get_exchange_auth_first_run home_data_root always_writable
              dump_braces json_as_text "kraken" "{}" None world_with_auth
              eq_refl eq_refl eq_refl) as [H1 [_ [H2 _]]].
  split; [exact H1 | exact H2].
Defined.

(** ** Assets *)

Section AssetFacts.

Context {Asset Exchange : Type}.
Variable symbol : Asset → string.
Variable get_assets : Exchange → result (list Asset).
Variable get_asset : Exchange → string → result Asset.

Lemma concat_sep_app (sep : string) (l1 l2 : list string) :
  l1 ≠ [] → l2 ≠ [] →
  String.concat sep (l1 ++ l2) =
  String.concat sep l1 +:+ sep +:+ String.concat sep l2.
Proof.
  intros H1 H2. induction l1 as [|x l1 IH]; [congruence |].
  destruct l1 as [|y l1].
  - destruct l2 as [|z l2]; [congruence | reflexivity].
  - change (String.concat sep ((x :: y :: l1) ++ l2))
      with (x +:+ sep +:+ String.concat sep ((y :: l1) ++ l2)).
    rewrite IH by discriminate.
    change (String.concat sep (x :: y :: l1))
      with (x +:+ sep +:+ String.concat sep (y :: l1)).
    rewrite !append_assoc. reflexivity.
Qed.

(** X17: the symbols string of one trading pair is its symbol, the same as
    for the list that holds only that pair; of no pair it is the empty
    string; and of two lists of pairs put end to end, neither empty, it is
    their two strings with a comma and a space between them. *)
Theorem get_symbols_string_joins (a : Asset) (l1 l2 : list Asset) :
  get_symbols_string symbol (inl a) = symbol a ∧
  get_symbols_string symbol (inr [a]) = symbol a ∧
  get_symbols_string symbol (inr []) = EmptyString ∧
  (l1 ≠ [] → l2 ≠ [] →
   get_symbols_string symbol (inr (l1 ++ l2)) =
   get_symbols_string symbol (inr l1) +:+ ", " +:+
   get_symbols_string symbol (inr l2)).
Proof.
  repeat split; try reflexivity.
  intros H1 H2. unfold get_symbols_string. rewrite map_app.
  apply concat_sep_app; intros Hnil; apply map_eq_nil in Hnil; congruence.
Qed.

(** *** [get_common_assets] *)

Lemma collect_Forall2 {A B : Type} (f : A → result B) (l : list A) :
  ∀ ys, collect f l = inr ys → Forall2 (fun x y => f x = inr y) l ys.
Proof.
  induction l as [|x l IH]; intros ys; cbn.
  - intros [= <-]. constructor.
  - destruct (f x) as [e|y] eqn:Hx; cbn; [discriminate |].
    destruct (collect f l) as [e|ys'] eqn:Hl; cbn; [discriminate |].
    intros [= <-]. constructor; [exact Hx | apply IH; reflexivity].
Qed.

Lemma elem_of_foldl_intersection (s : gset string) (sets : list (gset string))
    (x : string) :
  x ∈ foldl (∩) s sets ↔ x ∈ s ∧ ∀ t, t ∈ sets → x ∈ t.
Proof.
  revert s. induction sets as [|t sets IH]; intros s; cbn.
  - split; [intros H; split; [exact H |] | intros [H _]; exact H].
    intros t Ht. apply elem_of_nil in Ht as [].
  - rewrite IH, elem_of_intersection. split.
    + intros [[Hs Ht] Hall]. split; [exact Hs |].
      intros t' Ht'. apply elem_of_cons in Ht' as [-> | Ht']; auto.
    + intros [Hs Hall]. split; [split; [exact Hs | apply Hall; left] |].
      intros t' Ht'. apply Hall. right. exact Ht'.
Qed.

Lemma length_concat_uniform {A : Type} (n : nat) (ls : list (list A)) :
  Forall (fun l => length l = n) ls →
  length (concat ls) = (length ls * n)%nat.
Proof.
  induction 1 as [|l ls Hl _ IH]; cbn; [reflexivity |].
  rewrite length_app, IH, Hl. reflexivity.
Qed.

(** X18: for an empty mapping of exchanges [get_common_assets] raises
    [TypeError]: the intersection is called without any set. *)
Theorem get_common_assets_no_exchange :
  get_common_assets symbol get_assets get_asset [] =
  inl (TypeError "descriptor 'intersection' of 'set' object needs an argument").
Proof. reflexivity. Qed.

(** X19: when [get_common_assets] returns, the symbols it has looked up are
    those that every exchange of the mapping lists among its assets, each
    of them once, in some order; the result is made of one run of assets
    for each of these symbols, in that order, and the run of a symbol holds
    one asset for every exchange, in the order of the mapping, the one
    [get_asset] of that exchange returns for the symbol.  So its length is
    the number of common symbols times the number of exchanges, and each
    of its assets was returned by an exchange for a common symbol. *)
Theorem get_common_assets_returns (exchanges : list (string * Exchange))
    (assets : list Asset) :
  get_common_assets symbol get_assets get_asset exchanges = inr assets →
  ∃ (common : gset string) (order : list string)
    (per_symbol : list (list Asset)),
    (∀ s, s ∈ common ↔
          ∀ e, e ∈ exchanges →
               ∃ l a, get_assets (snd e) = inr l ∧ a ∈ l ∧ symbol a = s) ∧
    NoDup order ∧ (∀ s, s ∈ order ↔ s ∈ common) ∧
    assets = concat per_symbol ∧
    Forall2
      (fun s run =>
         Forall2 (fun e a => get_asset (snd e) s = inr a) exchanges run)
      order per_symbol ∧
    length assets = (size common * length exchanges)%nat ∧
    ∀ a, a ∈ assets →
         ∃ e s, e ∈ exchanges ∧ s ∈ common ∧ get_asset (snd e) s = inr a.
Proof.
  unfold get_common_assets.
  destruct (collect _ exchanges) as [e|symbols] eqn:Hsym; cbn; [discriminate |].
  apply collect_Forall2 in Hsym.
  destruct symbols as [|s0 rest]; cbn; [discriminate |].
  set (common := foldl (∩) (list_to_set s0) (map list_to_set rest)).
  destruct (collect _ (elements common)) as [e|per_symbol] eqn:Hper; cbn;
    [discriminate |].
  apply collect_Forall2 in Hper. intros [= <-].
  exists common, (elements common), per_symbol.
  split; [| split; [apply NoDup_elements | split; [apply elem_of_elements |
    split; [reflexivity | split; [| split]]]]].
  - intros s. subst common. rewrite elem_of_foldl_intersection.
    change (s ∈ list_to_set s0 ∧ (∀ t, t ∈ map list_to_set rest → s ∈ t))
      with (s ∈ (list_to_set s0 : gset string)
            ∧ (∀ t : gset string, t ∈ map list_to_set rest → s ∈ t)).
    assert (Hall : (s ∈ (list_to_set s0 : gset string)
                    ∧ ∀ t : gset string, t ∈ map list_to_set rest → s ∈ t)
                   ↔ ∀ names, names ∈ s0 :: rest → s ∈ names).
    { split.
      - intros [H0 Hrest] names Hn.
        apply elem_of_cons in Hn as [-> | Hn];
          [apply elem_of_list_to_set in H0; exact H0 |].
        apply (elem_of_list_to_set (C := gset string)).
        apply Hrest, list_elem_of_fmap. exists names. split; [reflexivity | exact Hn].
      - intros H. split; [apply elem_of_list_to_set, H; left |].
        intros t Ht. apply list_elem_of_fmap in Ht as [names [-> Hn]].
        apply elem_of_list_to_set, H. right. exact Hn. }
    rewrite Hall. clear Hall Hper per_symbol.
    split.
    + intros H e He.
      destruct (proj1 (list_elem_of_lookup _ _) He) as [i Hi].
      destruct (Forall2_lookup_l _ _ _ _ _ Hsym Hi) as [names [Hnames Hf]].
      destruct (get_assets (snd e)) as [err|l] eqn:Hl; cbn in Hf; [discriminate |].
      injection Hf as <-.
      specialize (H _ (proj2 (list_elem_of_lookup _ _) (ex_intro _ i Hnames))).
      apply list_elem_of_fmap in H as [a [-> Ha]]. eauto.
    + intros H names Hn.
      destruct (proj1 (list_elem_of_lookup _ _) Hn) as [i Hi].
      destruct (Forall2_lookup_r _ _ _ _ _ Hsym Hi) as [e [He Hf]].
      destruct (H e (proj2 (list_elem_of_lookup _ _) (ex_intro _ i He)))
        as [l [a [Hl [Ha <-]]]].
      rewrite Hl in Hf. cbn in Hf. injection Hf as <-.
      apply list_elem_of_fmap. exists a. split; [reflexivity | exact Ha].
  - eapply Forall2_impl; [exact Hper |].
    intros s run Hrun. apply collect_Forall2 in Hrun. exact Hrun.
  - rewrite (length_concat_uniform (length exchanges)).
    + rewrite <- (Forall2_length _ _ _ Hper). reflexivity.
    + apply Forall_forall. intros ps Hps.
      destruct (proj1 (list_elem_of_lookup _ _) Hps) as [i Hi].
      destruct (Forall2_lookup_r _ _ _ _ _ Hper Hi) as [s [_ Hf]].
      apply collect_Forall2, Forall2_length in Hf. congruence.
  - intros a Ha. apply list_elem_of_In, in_concat in Ha as [ps [Hps Ha]].
    apply (proj2 (list_elem_of_In _ _)) in Hps.
    apply (proj2 (list_elem_of_In _ _)) in Ha.
    destruct (proj1 (list_elem_of_lookup _ _) Hps) as [i Hi].
    destruct (Forall2_lookup_r _ _ _ _ _ Hper Hi) as [s [Hs Hf]].
    apply collect_Forall2 in Hf.
    destruct (proj1 (list_elem_of_lookup _ _) Ha) as [j Hj].
    destruct (Forall2_lookup_r _ _ _ _ _ Hf Hj) as [e [He Hget]].
    exists e, s. split; [apply list_elem_of_lookup; eauto |].
    split; [| exact Hget].
    apply elem_of_elements, list_elem_of_lookup. eauto.
Qed.

End AssetFacts.

Lemma get_common_assets_returns_witness :
  get_common_assets id inr listed_asset two_exchanges
  = inr ["eth_usd"; "eth_usd"]%string ∧
  ∃ (common : gset string) (order : list string)
    (per_symbol : list (list string)),
    (∀ s, s ∈ order ↔ s ∈ common) ∧
    ["eth_usd"; "eth_usd"]%string = concat per_symbol ∧
    Forall2
      (fun s run =>
         Forall2 (fun e a => listed_asset (snd e) s = inr a) two_exchanges run)
      order per_symbol ∧
    length ["eth_usd"; "eth_usd"]%string
    = (size common * length two_exchanges)%nat.
Proof.
  split; [vm_compute; reflexivity |].
  destruct (get_common_assets_returns id inr listed_asset two_exchanges
              ["eth_usd"; "eth_usd"]%string)
    as [common [order [per_symbol [_ [_ [Horder [Hcat [Hruns [Hlen _]]]]]]]]];
    [vm_compute; reflexivity |].
  exists common, order, per_symbol.
  split; [exact Horder |]. split; [exact Hcat |]. split; [exact Hruns | exact Hlen].
Defined.

(** ** The span of the result *)

Section SpanFacts.

Context {num : Type}.
Variable add : num → num → num.
Variable zero : num.
Variable ltb : num → num → bool.
Variable sum_of_nothing : option num.

(** X21: for a candle size above 1, a known field and a table with rows,
    the result starts with the bucket of the earliest time stamp and ends
    with the bucket of the latest one, so that only buckets in between can
    be empty; the first bucket starts on the day of the earliest time stamp,
    a whole number of candles after midnight. *)
Theorem resample_history_df_span (df : DataFrame num) (candle_size : Z)
    (field : string) (h : how) (tmin tmax : Z) :
  1 < candle_size → field_how field = Some h →
  (∃ c, (tmin, c) ∈ rows df) → (∃ c, (tmax, c) ∈ rows df) →
  (∀ r, r ∈ rows df → tmin <= fst r <= tmax) →
  let width := candle_size * minute_ns in
  ∃ out n lo0 cells0 lon cellsn,
    resample_history_df add zero ltb sum_of_nothing df candle_size field
    = inr out ∧
    length (rows out) = S n ∧
    rows out !! 0%nat = Some (lo0, cells0) ∧
    rows out !! n = Some (lon, cellsn) ∧
    lo0 <= tmin < lo0 + width ∧
    lon <= tmax < lon + width ∧
    (lo0 mod day_ns) mod width = 0 ∧
    lo0 / day_ns = tmin / day_ns.
Proof.
  intros Hcs Hh Hmin Hmax Hall width.
  assert (Hw : 0 < width) by (unfold width, minute_ns; lia).
  pose proof (time_span_of_bounds (rows df) tmin tmax Hmin Hmax Hall) as Hspan.
  pose proof (bucket_origin_spec tmin width Hw) as Horigin.
  destruct (bucket_origin_aligned tmin width Hw) as [Halign Hday].
  set (origin := bucket_origin tmin width) in *.
  assert (Hle : tmin <= tmax).
  { destruct Hmin as [c Hc]. exact (proj2 (Hall _ Hc)). }
  destruct (bucket_of_stamp origin width tmax Hw ltac:(lia)) as [Hq [Hin _]].
  set (q := (tmax - origin) / width) in *.
  exists (resample_agg add zero ltb sum_of_nothing df width h), (Z.to_nat q).
  exists origin. eexists. exists (origin + q * width). eexists.
  split; [| split; [| split; [| split; [| split; [| split; [| split]]]]]].
  - unfold resample_history_df.
    destruct (Z.ltb_spec 1 candle_size); [| lia]. rewrite Hh. reflexivity.
  - unfold resample_agg. cbv zeta. rewrite Hspan. cbn [rows].
    rewrite length_map, length_seq. fold origin q. lia.
  - apply resample_agg_lookup. exists tmin, tmax.
    split; [exact Hspan |]. fold origin q.
    split; [cbn; lia |]. split; [cbn; lia | reflexivity].
  - apply resample_agg_lookup. exists tmin, tmax.
    split; [exact Hspan |]. fold origin q. rewrite Z2Nat.id by exact Hq.
    split; [lia |]. split; reflexivity.
  - exact Horigin.
  - lia.
  - exact Halign.
  - exact Hday.
Qed.

End SpanFacts.

Lemma resample_history_df_span_witness :
  1 < 5 ∧
  ∃ out n lo0 cells0 lon cellsn,
    resample_history_df Z.add 0 Z.ltb None
      (five_closes (new_year_2017 + minute_ns)) 5 "close" = inr out ∧
    length (rows out) = S n ∧
    rows out !! 0%nat = Some (lo0, cells0) ∧
    rows out !! n = Some (lon, cellsn) ∧
    lo0 <= new_year_2017 + minute_ns < lo0 + 5 * minute_ns ∧
    lon <= new_year_2017 + 5 * minute_ns < lon + 5 * minute_ns ∧
    (lo0 mod day_ns) mod (5 * minute_ns) = 0 ∧
    lo0 / day_ns = (new_year_2017 + minute_ns) / day_ns.
Proof.
  split; [reflexivity |].
  apply (resample_history_df_span Z.add 0 Z.ltb None
           (five_closes (new_year_2017 + minute_ns)) 5 "close" Last
           (new_year_2017 + minute_ns) (new_year_2017 + 5 * minute_ns)
           eq_refl eq_refl).
  - exists [Some 1]. left.
  - exists [Some 5]. do 4 right. left.
  - intros r Hr. cbn in Hr.
    repeat (apply elem_of_cons in Hr as [-> | Hr];
            [vm_compute; split; discriminate |]).
    apply elem_of_nil in Hr as [].
Defined.
